(** * Cycle analyzer of the health tracker (app.py)

    A shallow embedding of the four menstrual-cycle functions of
    [health_tracker/app_folder/app.py]

      - [calculate_cycle_analysis]   (analyzeCycle)
      - [predict_next_period]        (predictNextPeriod)
      - [calculate_period_calendar]  (projectCalendar)
      - [get_period_delay]           (computeDelay)

    together with the part of Python's [datetime] module they call:
    [datetime.strptime(s, '%Y-%m-%d')], [dt + timedelta(days=n)],
    [(a - b).days], [dt.strftime('%Y-%m-%d')], [dt.month], [dt.year]
    and [datetime.now()].

    Python exceptions are modelled with an error monad [result]; a bare
    [try: ... except: ...] of the source becomes a [match] on the outcome. *)

From Stdlib Require Import ZArith List String Ascii Bool Lia.
From Stdlib Require Import Permutation Sorted.
Import ListNotations.

Local Open Scope string_scope.
Local Open Scope list_scope.
Local Open Scope Z_scope.

(** ** Python values and exceptions *)

(** The exceptions the modelled code can raise. *)
Inductive exn : Type :=
| ValueError         (* strptime: no match or no calendar date; max/min of [] *)
| TypeError          (* strptime: the argument is not a str *)
| OverflowError      (* timedelta / datetime arithmetic leaves the supported range *)
| ZeroDivisionError. (* integer division by zero *)

(** Outcome of a Python call: a value or a raised exception. *)
Inductive result (A : Type) : Type :=
| Ok (a : A)
| Raise (e : exn).

Arguments Ok {A} a.
Arguments Raise {A} e.

Definition bind {A B : Type} (r : result A) (k : A -> result B) : result B :=
  match r with
  | Ok a => k a
  | Raise e => Raise e
  end.

Notation "x <- r ;; k" := (bind r (fun x => k))
  (at level 61, r at next level, right associativity).

(** The JSON values a record's ['start'] can hold.  The logs are JSON and
    [update_log] stores whatever the request carries, so a start is a string
    or some other JSON scalar; the other JSON values (booleans, arrays,
    objects) behave like [Num] in every function below: they are not [str]. *)
Inductive value : Type :=
| Str (s : string)
| Num (z : Z)
| Null.

(** Python truthiness, as used by [not next_period_prediction]. *)
Definition truthy (v : value) : bool :=
  match v with
  | Str s => negb (String.eqb s "")
  | Num z => negb (z =? 0)
  | Null => false
  end.

Definition value_eqb (v w : value) : bool :=
  match v, w with
  | Str s, Str t => String.eqb s t
  | Num a, Num b => a =? b
  | Null, Null => true
  | _, _ => false
  end.

(** ** The proleptic Gregorian calendar of [datetime]

    A date is its proleptic Gregorian ordinal: 1 is 0001-01-01 and
    [MAXORDINAL] is 9999-12-31.  The definitions follow CPython's
    [_ymd2ord] and [_ord2ymd]. *)
Module Calendar.

Definition MINYEAR : Z := 1.
Definition MAXYEAR : Z := 9999.
Definition MINORDINAL : Z := 1.
Definition MAXORDINAL : Z := 3652059.

Definition DI400Y : Z := 146097.
Definition DI100Y : Z := 36524.
Definition DI4Y : Z := 1461.

Definition is_leap (y : Z) : bool :=
  (y mod 4 =? 0) && (negb (y mod 100 =? 0) || (y mod 400 =? 0)).

(** [_DAYS_IN_MONTH], for a year that is not leap. *)
Definition DAYS_IN_MONTH (m : Z) : Z :=
  match m with
  | 2 => 28
  | 4 | 6 | 9 | 11 => 30
  | _ => 31
  end.

Definition days_in_month (y m : Z) : Z :=
  if (m =? 2) && is_leap y then 29 else DAYS_IN_MONTH m.

(** [_DAYS_BEFORE_MONTH], for a year that is not leap. *)
Definition DAYS_BEFORE_MONTH (m : Z) : Z :=
  match m with
  | 1 => 0 | 2 => 31 | 3 => 59 | 4 => 90 | 5 => 120 | 6 => 151
  | 7 => 181 | 8 => 212 | 9 => 243 | 10 => 273 | 11 => 304 | 12 => 334
  | _ => 0
  end.

Definition days_before_month (y m : Z) : Z :=
  DAYS_BEFORE_MONTH m + (if (2 <? m) && is_leap y then 1 else 0).

Definition days_before_year (y : Z) : Z :=
  let p := y - 1 in p * 365 + p / 4 - p / 100 + p / 400.

Definition ymd2ord (y m d : Z) : Z :=
  days_before_year y + days_before_month y m + d.

Definition ord2ymd (ordinal : Z) : Z * Z * Z :=
  let n := ordinal - 1 in
  let n400 := n / DI400Y in
  let n := n mod DI400Y in
  let n100 := n / DI100Y in
  let n := n mod DI100Y in
  let n4 := n / DI4Y in
  let n := n mod DI4Y in
  let n1 := n / 365 in
  let n := n mod 365 in
  let year := n400 * 400 + 1 + n100 * 100 + n4 * 4 + n1 in
  if (n1 =? 4) || (n100 =? 4) then (year - 1, 12, 31)
  else
    let leapyear := (n1 =? 3) && (negb (n4 =? 24) || (n100 =? 3)) in
    let month := Z.shiftr (n + 50) 5 in
    let preceding :=
      DAYS_BEFORE_MONTH month + (if (2 <? month) && leapyear then 1 else 0) in
    if n <? preceding then
      let month' := month - 1 in
      let preceding' :=
        preceding -
        (DAYS_IN_MONTH month' + (if (month' =? 2) && leapyear then 1 else 0)) in
      (year, month', n - preceding' + 1)
    else (year, month, n - preceding + 1).

Definition year_of (o : Z) : Z := fst (fst (ord2ymd o)).
Definition month_of (o : Z) : Z := snd (fst (ord2ymd o)).
Definition day_of (o : Z) : Z := snd (ord2ymd o).

(** The ordinals a [datetime] can hold. *)
Definition in_range (o : Z) : bool := (MINORDINAL <=? o) && (o <=? MAXORDINAL).

End Calendar.

(** ** The [datetime] operations the analyzer uses *)
Module Datetime.
Import Calendar.

(** Strings are sequences of code points below 256; among those the regex
    class [\d] of [_strptime] matches exactly the ASCII digits. *)
Definition code (c : ascii) : Z := Z.of_N (N_of_ascii c).

Definition is_digit (c : ascii) : bool := (48 <=? code c) && (code c <=? 57).

Definition digit_val (c : ascii) : Z := code c - 48.

Definition in_class (lo hi : Z) (c : ascii) : bool :=
  is_digit c && (lo <=? digit_val c) && (digit_val c <=? hi).

(** [_strptime] turns the format ['%Y-%m-%d'] into the regular expression

      (?P<Y>\d\d\d\d)-(?P<m>1[0-2]|0[1-9]|[1-9])-(?P<d>3[0-1]|[1-2]\d|0[1-9]|[1-9]| [1-9])

    and applies [re.match].  Each piece below lists the ways it matches a
    prefix of the text, in the priority order of the regex engine, with the
    text that is left; sequencing is backtracking over these lists. *)

(** [(?P<Y>\d\d\d\d)] *)
Definition re_Y (s : string) : list (Z * string) :=
  match s with
  | String a (String b (String c (String d r))) =>
      if is_digit a && is_digit b && is_digit c && is_digit d
      then [(1000 * digit_val a + 100 * digit_val b + 10 * digit_val c + digit_val d, r)]
      else []
  | _ => []
  end.

(** The literal [-]. *)
Definition re_dash (s : string) : list string :=
  match s with
  | String c r => if Ascii.eqb c "-" then [r] else []
  | EmptyString => []
  end.

(** A two-character alternative [[l1-h1][l2-h2]]. *)
Definition two_chars (l1 h1 l2 h2 : Z) (s : string) : list (Z * string) :=
  match s with
  | String a (String b r) =>
      if in_class l1 h1 a && in_class l2 h2 b
      then [(10 * digit_val a + digit_val b, r)] else []
  | _ => []
  end.

(** A one-character alternative [[l-h]]. *)
Definition one_char (l h : Z) (s : string) : list (Z * string) :=
  match s with
  | String a r => if in_class l h a then [(digit_val a, r)] else []
  | EmptyString => []
  end.

(** The alternative [ [1-9]]: a space, then a digit. *)
Definition space_char (s : string) : list (Z * string) :=
  match s with
  | String a r => if Ascii.eqb a " " then one_char 1 9 r else []
  | EmptyString => []
  end.

(** [(?P<m>1[0-2]|0[1-9]|[1-9])] *)
Definition re_m (s : string) : list (Z * string) :=
  two_chars 1 1 0 2 s ++ two_chars 0 0 1 9 s ++ one_char 1 9 s.

(** [(?P<d>3[0-1]|[1-2]\d|0[1-9]|[1-9]| [1-9])] *)
Definition re_d (s : string) : list (Z * string) :=
  two_chars 3 3 0 1 s ++ two_chars 1 2 0 9 s ++ two_chars 0 0 1 9 s
  ++ one_char 1 9 s ++ space_char s.

(** All matches of the whole expression, best first: year, month, day and
    the unconverted rest. *)
Definition re_matches (s : string) : list (Z * Z * Z * string) :=
  flat_map (fun '(y, r1) =>
  flat_map (fun r2 =>
  flat_map (fun '(m, r3) =>
  flat_map (fun r4 =>
  map (fun '(d, r5) => (y, m, d, r5)) (re_d r4))
    (re_dash r3)) (re_m r2)) (re_dash r1)) (re_Y s).

(** [datetime.strptime(s, '%Y-%m-%d')] on a [str]: the first match must
    consume the whole text, and year, month and day must name a calendar
    date of the years 1 to 9999.  The time of day of the result is midnight,
    so the result is given by its ordinal. *)
Definition strptime (s : string) : result Z :=
  match re_matches s with
  | [] => Raise ValueError
  | (y, m, d, rest) :: _ =>
      if negb (String.eqb rest "") then Raise ValueError
      else if (MINYEAR <=? y) && (d <=? days_in_month y m)
      then Ok (ymd2ord y m d)
      else Raise ValueError
  end.

(** [datetime.strptime(v, '%Y-%m-%d')] on any value: a [TypeError] unless
    [v] is a [str]. *)
Definition strptime_value (v : value) : result Z :=
  match v with
  | Str s => strptime s
  | _ => Raise TypeError
  end.

Definition digit_char (z : Z) : ascii := ascii_of_N (Z.to_N (48 + z)).

Definition pad2 (n : Z) : string :=
  String (digit_char (n / 10 mod 10)) (String (digit_char (n mod 10)) "").

Definition pad4 (n : Z) : string :=
  String (digit_char (n / 1000 mod 10)) (String (digit_char (n / 100 mod 10)) (pad2 n)).

(** [dt.strftime('%Y-%m-%d')], the year zero-filled to four digits as the
    [datetime] documentation gives it (CPython before 3.13 on glibc leaves
    years below 1000 unfilled; from year 1000 on all agree). *)
Definition strftime (o : Z) : string :=
  (pad4 (year_of o) ++ "-" ++ pad2 (month_of o) ++ "-" ++ pad2 (day_of o))%string.

(** [timedelta(days=n)]: at most 999999999 days either way. *)
Definition MAX_DELTA_DAYS : Z := 999999999.

Definition timedelta (n : Z) : result Z :=
  if (- MAX_DELTA_DAYS <=? n) && (n <=? MAX_DELTA_DAYS) then Ok n
  else Raise OverflowError.

(** [dt + delta] for a midnight [dt]: the sum must be a date of the years
    1 to 9999. *)
Definition add (o delta : Z) : result Z :=
  if in_range (o + delta) then Ok (o + delta) else Raise OverflowError.

(** [dt + timedelta(days=n)] *)
Definition add_days (o n : Z) : result Z :=
  delta <- timedelta n ;; add o delta.

(** [dt - timedelta(days=n)] *)
Definition sub_days (o n : Z) : result Z :=
  delta <- timedelta n ;; add o (- delta).

(** [(a - b).days] for two midnight datetimes. *)
Definition diff_days (a b : Z) : Z := a - b.

(** A [datetime] with its time of day, as [datetime.now()] returns it:
    the ordinal of the date and the microseconds since midnight. *)
Record datetime : Type := mkDatetime { ordinal : Z; micros : Z }.

Definition DAY_MICROS : Z := 86400000000.

Definition wf_datetime (t : datetime) : Prop :=
  MINORDINAL <= ordinal t <= MAXORDINAL /\ 0 <= micros t < DAY_MICROS.

(** [t > p] where [p] is the midnight datetime of ordinal [p]. *)
Definition after_midnight_of (t : datetime) (p : Z) : bool :=
  (p <? ordinal t) || ((p =? ordinal t) && (0 <? micros t)).

(** [(t - p).days] where [p] is a midnight datetime: the timedelta is
    normalised so that its seconds and microseconds are not negative. *)
Definition days_since (t : datetime) (p : Z) : Z :=
  ((ordinal t - p) * DAY_MICROS + micros t) / DAY_MICROS.

End Datetime.

(** ** Python built-ins on lists of integers *)
Module Builtins.

(** [range(n)] *)
Definition range (n : Z) : list Z := map Z.of_nat (seq 0 (Z.to_nat n)).

(** [range(a, b)] *)
Definition range_from (a b : Z) : list Z := map (fun i => a + i) (range (b - a)).

(** [len(l)] *)
Definition len {A : Type} (l : list A) : Z := Z.of_nat (List.length l).

(** [l[i]] for an index that is in range; [d] is never read by the callers. *)
Definition item (l : list Z) (i : Z) : Z := nth (Z.to_nat i) l 0.

(** [sum(l)] *)
Definition sum (l : list Z) : Z := fold_left Z.add l 0.

(** [max(l)] and [min(l)]: a [ValueError] on the empty list. *)
Definition py_max (l : list Z) : result Z :=
  match l with
  | [] => Raise ValueError
  | x :: t => Ok (fold_left Z.max t x)
  end.

Definition py_min (l : list Z) : result Z :=
  match l with
  | [] => Raise ValueError
  | x :: t => Ok (fold_left Z.min t x)
  end.

(** [a // b]: floor division. *)
Definition floordiv (a b : Z) : result Z :=
  if b =? 0 then Raise ZeroDivisionError else Ok (a / b).

(** [l.sort()] on integers.  Python sorts with Timsort; on a total order
    whose equal elements are identical every sorting algorithm returns the
    same list, given here by insertion. *)
Fixpoint insert (x : Z) (l : list Z) : list Z :=
  match l with
  | [] => [x]
  | y :: t => if x <=? y then x :: y :: t else y :: insert x t
  end.

Fixpoint sort (l : list Z) : list Z :=
  match l with
  | [] => []
  | x :: t => insert x (sort t)
  end.

(** A [for] loop whose body can raise: the loop state is threaded through
    the iterations and the first exception ends the loop. *)
Fixpoint for_each {A S : Type} (l : list A) (body : A -> S -> result S) (s : S)
  : result S :=
  match l with
  | [] => Ok s
  | x :: t => s' <- body x s ;; for_each t body s'
  end.

End Builtins.

(** ** The cycle analyzer *)
Import Calendar Datetime Builtins.

(** One element of [period_history]: [{'date': ..., 'start': ...}].  Both
    dashboards build every record with the two keys, from a log entry whose
    ['start'] is truthy. *)
Record period : Type := mkPeriod {
  logged : string;   (* 'date': the day of the log entry *)
  start : value      (* 'start': what the user entered as period start *)
}.

(** The dictionary [calculate_cycle_analysis] returns. *)
Record analysis : Type := mkAnalysis {
  cycle_length : Z;
  period_duration : Z;
  cycle_regularity : string;
  next_ovulation : string;
  fertile_window : string;
  last_period_start : value
}.

(** One element of the list [calculate_period_calendar] returns. *)
Record prediction : Type := mkPrediction {
  date : string;
  month : Z;
  year : Z;
  cycle_number : Z
}.

Definition NEED_MORE_DATA : string := "Need more data for prediction".

(** The loop shared by the analysis and the calendar:
<<
    period_dates = []
    for period in period_history:
        try:
            start_date = datetime.strptime(period['start'], '%Y-%m-%d')
            period_dates.append(start_date)
        except:
            continue
>> *)
Definition collect_step (period_dates : list Z) (p : period) : list Z :=
  match strptime_value (start p) with
  | Ok start_date => period_dates ++ [start_date]
  | Raise _ => period_dates
  end.

Definition parse_dates (period_history : list period) : list Z :=
  fold_left collect_step period_history [].

(** [period_history[0]['start'] if period_history else 'No data'] *)
Definition first_start (period_history : list period) : value :=
  match period_history with
  | [] => Str "No data"
  | p :: _ => start p
  end.

Definition insufficient_data (period_history : list period) : analysis :=
  {| cycle_length := 28;
     period_duration := 5;
     cycle_regularity := "Insufficient data";
     next_ovulation := "Need more data";
     fertile_window := "Need more data";
     last_period_start := first_start period_history |}.

(** [for i in range(1, len(period_dates)):
       differences.append((period_dates[i] - period_dates[i-1]).days)] *)
Definition differences_of (period_dates : list Z) : list Z :=
  map (fun i => diff_days (item period_dates i) (item period_dates (i - 1)))
      (range_from 1 (len period_dates)).

Definition classify (cycle_variance : Z) : string :=
  if cycle_variance <=? 3 then "Very Regular"
  else if cycle_variance <=? 7 then "Regular"
  else if cycle_variance <=? 10 then "Slightly Irregular"
  else "Irregular".

Definition calculate_cycle_analysis (period_history : list period)
  : result analysis :=
  if len period_history <? 2 then Ok (insufficient_data period_history)
  else
    let period_dates := parse_dates period_history in
    if len period_dates <? 2 then Ok (insufficient_data period_history)
    else
      let period_dates := sort period_dates in
      let differences := differences_of period_dates in
      avg_cycle <- floordiv (sum differences) (len differences) ;;
      hi <- py_max differences ;;
      lo <- py_min differences ;;
      let cycle_variance := hi - lo in
      let regularity := classify cycle_variance in
      let last_period := last period_dates 0 in
      next_period <- add_days last_period avg_cycle ;;
      ovulation_date <- sub_days next_period 14 ;;
      fertile_start <- sub_days ovulation_date 3 ;;
      fertile_end <- add_days ovulation_date 1 ;;
      let period_duration := 5 in
      Ok {| cycle_length := avg_cycle;
            period_duration := period_duration;
            cycle_regularity := regularity;
            next_ovulation := strftime ovulation_date;
            fertile_window :=
              (strftime fertile_start ++ " to " ++ strftime fertile_end)%string;
            last_period_start := Str (strftime last_period) |}.

Definition predict_next_period (period_history : list period) (cycle_length : Z)
  : result string :=
  if len period_history <? 1 then Ok NEED_MORE_DATA
  else
    last_period <- strptime_value (start (last period_history (mkPeriod "" Null))) ;;
    next_predicted <- add_days last_period cycle_length ;;
    Ok (strftime next_predicted).

Definition entry_of (period_date i : Z) : prediction :=
  {| date := strftime period_date;
     month := month_of period_date;
     year := year_of period_date;
     cycle_number := i + 1 |}.

Definition calculate_period_calendar (period_history : list period)
  (cycle_length period_duration months : Z) : result (list prediction) :=
  if len period_history <? 1 then Ok []
  else
    let period_dates := parse_dates period_history in
    if len period_dates <? 1 then Ok []
    else
      let last_period := last period_dates 0 in
      for_each (range months) (fun i predictions =>
        next_period <- add_days last_period (cycle_length * (i + 1)) ;;
        for_each (range period_duration) (fun day predictions =>
          period_date <- add_days next_period day ;;
          Ok (predictions ++ [entry_of period_date i]))
          predictions) [].

(** [get_period_delay], with the reading of the clock ([datetime.now()])
    as the argument [today].  Every exception is caught by the function's
    own [try: ... except: pass], so the result is a plain optional integer
    ([None] is Python's [None]). *)
Definition get_period_delay (today : datetime) (next_period_prediction : value)
  : option Z :=
  if negb (truthy next_period_prediction)
     || value_eqb next_period_prediction (Str NEED_MORE_DATA)
  then None
  else
    match strptime_value next_period_prediction with
    | Ok predicted_date =>
        if after_midnight_of today predicted_date
        then Some (days_since today predicted_date)
        else None
    | Raise _ => None
    end.

(** ** Vocabulary of the specification *)

(** The date of a record whose start parses, nothing for the others. *)
Definition valid_date (p : period) : list Z :=
  match strptime_value (start p) with
  | Ok d => [d]
  | Raise _ => []
  end.

(** The valid start dates of a history, in the order of the history. *)
Definition valid_dates (period_history : list period) : list Z :=
  flat_map valid_date period_history.

(** A record is valid when its start parses as a date. *)
Definition parses (p : period) : Prop := exists d, strptime_value (start p) = Ok d.

(** The day-gaps between consecutive dates of a list. *)
Fixpoint gaps (l : list Z) : list Z :=
  match l with
  | a :: (b :: _) as t => (b - a) :: gaps t
  | _ => []
  end.

(** The dates the analysis computes from the latest start [latest] and the
    average cycle [avg] are [latest + avg] (next period), 14 days before it
    (ovulation), and 3 days before and 1 day after that.  They are all dates
    of the years 1 to 9999 exactly when the earliest and the latest of them
    are. *)
Definition analysis_in_range (latest avg : Z) : bool :=
  (MINORDINAL <=? latest + avg - 17) && (latest + avg <=? MAXORDINAL).

(** The entries of the calendar for reference date [ref]: for each cycle
    [i] of [range months], the days [ref + cycle_length * (i + 1) + day]
    for [day] of [range period_duration]. *)
Definition cycle_entries (ref cycle_length period_duration i : Z) : list prediction :=
  map (fun day => entry_of (ref + cycle_length * (i + 1) + day) i)
      (range period_duration).

Definition calendar_entries (ref cycle_length period_duration months : Z)
  : list prediction :=
  flat_map (cycle_entries ref cycle_length period_duration) (range months).

(** Every date the calendar loop computes is a date of the years 1 to
    9999: each period start, and each day of each period. *)
Definition calendar_in_range (ref cycle_length period_duration months : Z) : bool :=
  forallb (fun i =>
    in_range (ref + cycle_length * (i + 1))
    && forallb (fun day => in_range (ref + cycle_length * (i + 1) + day))
               (range period_duration))
    (range months).

(** [hi] is the greatest element of [l]. *)
Definition is_max (hi : Z) (l : list Z) : Prop :=
  In hi l /\ Forall (fun x => x <= hi) l.

(** [lo] is the least element of [l]. *)
Definition is_min (lo : Z) (l : list Z) : Prop :=
  In lo l /\ Forall (fun x => lo <= x) l.

(** The record the analysis returns when its dates are in range. *)
Definition analysis_of (latest avg variance : Z) : analysis :=
  {| cycle_length := avg;
     period_duration := 5;
     cycle_regularity := classify variance;
     next_ovulation := strftime (latest + avg - 14);
     fertile_window :=
       (strftime (latest + avg - 14 - 3) ++ " to "
        ++ strftime (latest + avg - 14 + 1))%string;
     last_period_start := Str (strftime latest) |}.

(** A history whose records carry the given start strings. *)
Definition history_of (starts : list string) : list period :=
  map (fun s => mkPeriod s (Str s)) starts.

(** ** Checks by computation *)

(** The last step of [_ord2ymd]: month and day of the day [n] (from 0) of a
    year, leap or not. *)
Definition month_day (leapyear : bool) (n : Z) : Z * Z :=
  let month := Z.shiftr (n + 50) 5 in
  let preceding :=
    DAYS_BEFORE_MONTH month + (if (2 <? month) && leapyear then 1 else 0) in
  if n <? preceding then
    let month' := month - 1 in
    let preceding' :=
      preceding -
      (DAYS_IN_MONTH month' + (if (month' =? 2) && leapyear then 1 else 0)) in
    (month', n - preceding' + 1)
  else (month, n - preceding + 1).

(** Day [n] of a year gets a month and a day of that month, and these name
    day [n] again. *)
Definition month_day_ok (leapyear : bool) (n : Z) : bool :=
  let '(m, d) := month_day leapyear n in
  (1 <=? m) && (m <=? 12) && (1 <=? d)
  && (d <=? DAYS_IN_MONTH m + (if (m =? 2) && leapyear then 1 else 0))
  && (DAYS_BEFORE_MONTH m + (if (2 <? m) && leapyear then 1 else 0) + d =? n + 1).

(** [f] holds at [count] consecutive integers from [first]. *)
Fixpoint all_from (f : Z -> bool) (first : Z) (count : nat) : bool :=
  match count with
  | O => true
  | S c => f first && all_from f (first + 1) c
  end.

(** The first element of the day group of the text two digits wide. *)
Definition day_reads_back (d : Z) : bool :=
  match hd_error (re_d (pad2 d)) with
  | Some (d', rest) => (d' =? d) && String.eqb rest ""
  | None => false
  end.

(** ** The cycle section of the two dashboards

    [dashboard] and [parent_dashboard] run the same lines on the logs of
    one user: they collect the period history from the daily logs and call
    the four cycle functions in a row. *)

(** What these lines read of one item of [logs[user_id].items()]: the date
    key and [log_data['period']['start']].  The items come in the order of
    the dictionary, which is the order in which the days were first logged. *)
Record day_log : Type := mkDayLog {
  log_day : string;
  period_start : value
}.

(** The part of [initialize_daily_log()] the cycle section reads:
    ['period': {'start': '', ...}]. *)
Definition initialize_daily_log (today : string) : day_log :=
  {| log_day := today; period_start := Str "" |}.

(** [if log_data['period']['start']:
        period_history.append({'date': date, 'start': ...})] *)
Definition history_step (period_history : list period) (l : day_log)
  : list period :=
  if truthy (period_start l)
  then period_history ++ [mkPeriod (log_day l) (period_start l)]
  else period_history.

Definition build_history (logs : list day_log) : list period :=
  fold_left history_step logs [].

(** The values of [cycle_analysis.get(key, default)] for the six keys, when
    [cycle_analysis] is the empty dictionary. *)
Definition no_analysis : analysis :=
  {| cycle_length := 28;
     period_duration := 5;
     cycle_regularity := "Insufficient data";
     next_ovulation := "Need more data";
     fertile_window := "Need more data";
     last_period_start := Str "No data" |}.

(** The cycle arguments of [render_template]: the prediction (a string or
    [None]), the calendar, the delay, and the six values read from
    [cycle_analysis] with their defaults. *)
Record cycle_view : Type := mkCycleView {
  view_prediction : value;
  view_calendar : list prediction;
  view_delay : option Z;
  view_analysis : analysis
}.

(** The cycle section; [gender] is [users[user_id].get('gender')] ([Null]
    when the key is missing), [logs] the items of [logs[user_id]] (none when
    the user has no logs, which [parent_dashboard] allows), and [today] the
    clock as [get_period_delay] reads it.  The calendar is called with its
    default of 6 months. *)
Definition cycle_section (today : datetime) (gender : value)
  (logs : list day_log) : result cycle_view :=
  if value_eqb gender (Str "female") then
    let period_history := build_history logs in
    cycle_analysis <- calculate_cycle_analysis period_history ;;
    next_period_prediction <-
      predict_next_period period_history (cycle_length cycle_analysis) ;;
    period_calendar <-
      calculate_period_calendar period_history (cycle_length cycle_analysis)
        (period_duration cycle_analysis) 6 ;;
    let period_delay := get_period_delay today (Str next_period_prediction) in
    Ok {| view_prediction := Str next_period_prediction;
          view_calendar := period_calendar;
          view_delay := period_delay;
          view_analysis := cycle_analysis |}
  else
    Ok {| view_prediction := Null;
          view_calendar := [];
          view_delay := None;
          view_analysis := no_analysis |}.

(** The record a day's log contributes to the history. *)
Definition record_of (l : day_log) : period :=
  mkPeriod (log_day l) (period_start l).

(** ** Sessions and log-in *)

(** The three keys the routes keep in the Flask session. *)
Record session : Type := mkSession {
  user_id : option string;
  parent_user_id : option string;
  is_parent : option bool
}.

(** [session.clear()] *)
Definition empty_session : session := mkSession None None None.

(** What [login] reads of one value of the users table, by
    [user_data.get(key)]: [None] when the key is missing. *)
Record user : Type := mkUser {
  email : option string;
  password : option string;
  parent_email : option string;
  parent_password : option string
}.

(** [user_data.get(key) == text] *)
Definition field_is (field : option string) (text : string) : bool :=
  match field with
  | Some s => String.eqb s text
  | None => false
  end.

(** The fields of the log-in form: [request.form['email']],
    [request.form['password']] and ['parent_login' in request.form]. *)
Record login_form : Type := mkLoginForm {
  form_email : string;
  form_password : string;
  parent_login : bool
}.

Inductive response : Type :=
| Redirect (endpoint : string)
| Render (template : string) (error : option string).

(** [session.get('is_parent')] as a condition. *)
Definition is_parent_set (s : session) : bool :=
  match is_parent s with
  | Some b => b
  | None => false
  end.

(** The guard of [dashboard] and of [update_log]: the user whose data the
    route works on, or [None] when the route turns the request away. *)
Definition dashboard_access (s : session) : option string :=
  match user_id s with
  | None => None
  | Some uid => if is_parent_set s then None else Some uid
  end.

(** The guard of [parent_dashboard]. *)
Definition parent_dashboard_access (s : session) : option string :=
  match parent_user_id s with
  | None => None
  | Some uid => if negb (is_parent_set s) then None else Some uid
  end.

Section Login.

(** [hash_password]: the SHA-256 digest of the password, in hexadecimal. *)
Variable hash_password : string -> string.

(** The POST branch of [login]: the loop over [users.items()]. *)
Fixpoint login_post (f : login_form) (users : list (string * user))
  (s : session) : session * response :=
  match users with
  | [] => (s, Render "login.html" (Some "Invalid credentials"))
  | (uid, user_data) :: rest =>
      if parent_login f then
        if field_is (parent_email user_data) (form_email f)
           && field_is (parent_password user_data)
                       (hash_password (form_password f))
        then ({| user_id := user_id s;
                 parent_user_id := Some uid;
                 is_parent := Some true |},
              Redirect "parent_dashboard")
        else login_post f rest s
      else
        if field_is (email user_data) (form_email f)
           && field_is (password user_data) (hash_password (form_password f))
        then ({| user_id := Some uid;
                 parent_user_id := parent_user_id s;
                 is_parent := Some false |},
              Redirect "dashboard")
        else login_post f rest s
  end.

(** The requests that change the session. *)
Inductive request : Type :=
| LoginPost (f : login_form)
| Logout.

Definition handle (users : list (string * user)) (s : session) (r : request)
  : session :=
  match r with
  | LoginPost f => fst (login_post f users s)
  | Logout => empty_session
  end.

(** The session after a sequence of requests, from a fresh browser. *)
Definition session_after (users : list (string * user)) (rs : list request)
  : session :=
  fold_left (handle users) rs empty_session.

(** The credentials of the form are those of the user, for the kind of
    log-in the form asks for. *)
Definition credentials_match (f : login_form) (u : user) : bool :=
  if parent_login f
  then field_is (parent_email u) (form_email f)
       && field_is (parent_password u) (hash_password (form_password f))
  else field_is (email u) (form_email f)
       && field_is (password u) (hash_password (form_password f)).

End Login.

(** ** The time stamps of [update_log] *)

(** A JSON object with string values, as a Python dictionary: keys are
    unique and keep the order of their first insertion. *)
Definition dict : Type := list (string * string).

(** [key in d] *)
Fixpoint dict_mem (key : string) (d : dict) : bool :=
  match d with
  | [] => false
  | (k, _) :: t => String.eqb k key || dict_mem key t
  end.

(** [d.get(key)] *)
Fixpoint dict_get (key : string) (d : dict) : option string :=
  match d with
  | [] => None
  | (k, v) :: t => if String.eqb k key then Some v else dict_get key t
  end.

(** [d[key] = v] *)
Fixpoint dict_set (key v : string) (d : dict) : dict :=
  match d with
  | [] => [(key, v)]
  | (k, w) :: t =>
      if String.eqb k key then (k, v) :: t else (k, w) :: dict_set key v t
  end.

(** ['last_updated'] of [initialize_daily_log()]. *)
Definition initial_last_updated : dict :=
  [("breakfast", ""); ("lunch", ""); ("evening", ""); ("dinner", "");
   ("water", ""); ("sleep", ""); ("tasks", ""); ("period", "")].

Definition timestamp_mapping : dict :=
  [("morning", "breakfast"); ("afternoon", "lunch"); ("evening", "evening");
   ("dinner_snacks", "dinner")].

(** The time-stamp lines of [update_log], for a request whose
    ['update_type'] is the JSON scalar [update_type]; a scalar that is not a
    string is a key of neither dictionary.  (A list or an object is not
    hashable and makes the [in] test raise; such requests are left out.) *)
Definition stamp (last_updated : dict) (update_type : value)
  (current_time : string) : dict :=
  match update_type with
  | Str u =>
      match dict_get u timestamp_mapping with
      | Some timestamp_field => dict_set timestamp_field current_time last_updated
      | None =>
          if dict_mem u last_updated
          then dict_set u current_time last_updated
          else last_updated
      end
  | _ => last_updated
  end.

(** The field a request stamps, if any. *)
Definition stamped_field (last_updated : dict) (update_type : value)
  : option string :=
  match update_type with
  | Str u =>
      match dict_get u timestamp_mapping with
      | Some timestamp_field => Some timestamp_field
      | None => if dict_mem u last_updated then Some u else None
      end
  | _ => None
  end.

(** The user ids a session holds are ids of the users table. *)
Definition session_ok (users : list (string * user)) (s : session) : Prop :=
  (forall uid, user_id s = Some uid -> In uid (map fst users)) /\
  (forall uid, parent_user_id s = Some uid -> In uid (map fst users)).

(** ** Facts about the list built-ins *)
Section ListFacts.

Lemma len_nonneg {A : Type} (l : list A) : 0 <= len l.
Proof. unfold len. lia. Qed.

Lemma len_cons {A : Type} (x : A) (l : list A) : len (x :: l) = len l + 1.
Proof. unfold len. simpl List.length. lia. Qed.

Lemma len_app {A : Type} (l k : list A) : len (l ++ k) = len l + len k.
Proof. unfold len. rewrite length_app. lia. Qed.

Lemma range_succ (n : Z) :
  0 <= n -> range (n + 1) = 0 :: map (fun i => i + 1) (range n).
Proof.
  intros Hn. unfold range.
  replace (Z.to_nat (n + 1)) with (S (Z.to_nat n)) by lia.
  simpl. f_equal.
  rewrite <- seq_shift, !map_map.
  apply map_ext. intros k. lia.
Qed.

Lemma range_length (n : Z) : List.length (range n) = Z.to_nat n.
Proof. unfold range. now rewrite length_map, length_seq. Qed.

Lemma range_In (n i : Z) : In i (range n) <-> 0 <= i < n.
Proof.
  unfold range. rewrite in_map_iff. split.
  - intros (k & <- & Hk). apply in_seq in Hk. lia.
  - intros Hi. exists (Z.to_nat i). split; [lia|]. apply in_seq. lia.
Qed.

Lemma sum_acc (l : list Z) (a : Z) : fold_left Z.add l a = a + sum l.
Proof.
  unfold sum. revert a.
  induction l as [|x t IH]; intros a; simpl; [lia|].
  rewrite (IH (a + x)), (IH x). lia.
Qed.

Lemma sum_cons (x : Z) (l : list Z) : sum (x :: l) = x + sum l.
Proof. unfold sum at 1. simpl. apply sum_acc. Qed.

Lemma fold_max_spec (l : list Z) (a : Z) :
  let m := fold_left Z.max l a in
  (m = a \/ In m l) /\ a <= m /\ Forall (fun x => x <= m) l.
Proof.
  revert a. induction l as [|x t IH]; intros a; simpl.
  - split; [now left|]. split; [lia|constructor].
  - destruct (IH (Z.max a x)) as (Hin & Hle & Hall).
    split; [|split].
    + destruct Hin as [Hin|Hin]; [|now right; right].
      rewrite Hin. destruct (Z.max_spec a x) as [[_ ->]|[_ ->]]; auto.
    + lia.
    + constructor; [lia|exact Hall].
Qed.

Lemma fold_min_spec (l : list Z) (a : Z) :
  let m := fold_left Z.min l a in
  (m = a \/ In m l) /\ m <= a /\ Forall (fun x => m <= x) l.
Proof.
  revert a. induction l as [|x t IH]; intros a; simpl.
  - split; [now left|]. split; [lia|constructor].
  - destruct (IH (Z.min a x)) as (Hin & Hle & Hall).
    split; [|split].
    + destruct Hin as [Hin|Hin]; [|now right; right].
      rewrite Hin. destruct (Z.min_spec a x) as [[_ ->]|[_ ->]]; auto.
    + lia.
    + constructor; [lia|exact Hall].
Qed.

Lemma py_max_spec (l : list Z) :
  l <> [] -> exists hi, py_max l = Ok hi /\ is_max hi l.
Proof.
  destruct l as [|x t]; [congruence|]. intros _.
  exists (fold_left Z.max t x). split; [reflexivity|].
  destruct (fold_max_spec t x) as (Hin & Hle & Hall).
  split.
  - destruct Hin as [->|Hin]; [now left|now right].
  - constructor; assumption.
Qed.

Lemma py_min_spec (l : list Z) :
  l <> [] -> exists lo, py_min l = Ok lo /\ is_min lo l.
Proof.
  destruct l as [|x t]; [congruence|]. intros _.
  exists (fold_left Z.min t x). split; [reflexivity|].
  destruct (fold_min_spec t x) as (Hin & Hle & Hall).
  split.
  - destruct Hin as [->|Hin]; [now left|now right].
  - constructor; assumption.
Qed.

End ListFacts.

(** ** Sorting *)
Section Sorting.

Lemma insert_perm (x : Z) (l : list Z) : Permutation (insert x l) (x :: l).
Proof.
  induction l as [|y t IH]; simpl; [reflexivity|].
  destruct (x <=? y); [reflexivity|].
  rewrite IH. apply perm_swap.
Qed.

Lemma sort_perm (l : list Z) : Permutation (sort l) l.
Proof.
  induction l as [|x t IH]; simpl; [constructor|].
  rewrite insert_perm. now constructor.
Qed.

Lemma insert_sorted (x : Z) (l : list Z) :
  StronglySorted Z.le l -> StronglySorted Z.le (insert x l).
Proof.
  induction 1 as [|y t Hs IH Hall]; simpl.
  - repeat constructor.
  - destruct (x <=? y) eqn:Hxy.
    + apply Z.leb_le in Hxy. constructor.
      * now constructor.
      * constructor; [exact Hxy|].
        eapply Forall_impl; [|exact Hall]. simpl. intros; lia.
    + apply Z.leb_gt in Hxy. constructor; [exact IH|].
      apply (Permutation_Forall (x := x :: t)).
      * symmetry. apply insert_perm.
      * constructor; [lia|exact Hall].
Qed.

Lemma sort_sorted (l : list Z) : StronglySorted Z.le (sort l).
Proof.
  induction l as [|x t IH]; simpl; [constructor|now apply insert_sorted].
Qed.

Lemma insert_comm (x y : Z) (l : list Z) :
  insert x (insert y l) = insert y (insert x l).
Proof.
  induction l as [|z t IH]; simpl.
  - destruct (x <=? y) eqn:Hxy, (y <=? x) eqn:Hyx; try reflexivity.
    + apply Z.leb_le in Hxy, Hyx. now replace y with x by lia.
    + apply Z.leb_gt in Hxy, Hyx. lia.
  - destruct (y <=? z) eqn:Hyz, (x <=? z) eqn:Hxz; simpl;
      destruct (x <=? y) eqn:Hxy, (y <=? x) eqn:Hyx; simpl;
      rewrite ?Hyz, ?Hxz; try reflexivity;
      repeat match goal with
             | H : (_ <=? _) = true |- _ => apply Z.leb_le in H
             | H : (_ <=? _) = false |- _ => apply Z.leb_gt in H
             end;
      try lia;
      try (now replace y with x by lia);
      now rewrite IH.
Qed.

(** The sorted list depends only on the multiset of the elements. *)
Lemma sort_permutation (l k : list Z) : Permutation l k -> sort l = sort k.
Proof.
  induction 1 as [|x l k _ IH|x y l|l k m _ IH1 _ IH2]; simpl.
  - reflexivity.
  - now rewrite IH.
  - apply insert_comm.
  - congruence.
Qed.

Lemma sort_length (l : list Z) : List.length (sort l) = List.length l.
Proof. apply Permutation_length, sort_perm. Qed.

Lemma sorted_last_max (l : list Z) (d : Z) :
  StronglySorted Z.le l -> l <> [] ->
  In (last l d) l /\ Forall (fun x => x <= last l d) l.
Proof.
  induction 1 as [|x t Hs IH Hall]; [congruence|]. intros _.
  destruct t as [|y t'].
  - simpl. split; [now left|]. constructor; [lia|constructor].
  - destruct IH as (Hin & Hle); [discriminate|].
    change (last (x :: y :: t') d) with (last (y :: t') d).
    split; [now right|].
    constructor; [|exact Hle].
    rewrite Forall_forall in Hall. now apply Hall.
Qed.

End Sorting.

(** ** Consecutive gaps *)
Section Gaps.

Lemma gaps_length (l : list Z) : len (gaps l) = Z.max 0 (len l - 1).
Proof.
  induction l as [|a [|b t] IH].
  - reflexivity.
  - reflexivity.
  - change (gaps (a :: b :: t)) with ((b - a) :: gaps (b :: t)).
    rewrite len_cons, IH, !len_cons.
    pose proof (len_nonneg t). lia.
Qed.

(** The gaps telescope: their sum is the span from the first date to the
    last. *)
Lemma gaps_sum (l : list Z) (d : Z) : l <> [] -> sum (gaps l) = last l d - hd d l.
Proof.
  induction l as [|a [|b t] IH]; [congruence| |]; intros _.
  - simpl. unfold sum. simpl. lia.
  - change (gaps (a :: b :: t)) with ((b - a) :: gaps (b :: t)).
    rewrite sum_cons, IH by discriminate.
    change (last (a :: b :: t) d) with (last (b :: t) d).
    simpl hd. lia.
Qed.

Lemma gaps_nonneg (l : list Z) :
  StronglySorted Z.le l -> Forall (fun g => 0 <= g) (gaps l).
Proof.
  induction 1 as [|a t Hs IH Hall]; [constructor|].
  destruct t as [|b t']; [constructor|].
  change (gaps (a :: b :: t')) with ((b - a) :: gaps (b :: t')).
  constructor; [|exact IH].
  inversion Hall; subst. lia.
Qed.

Lemma item_cons (a : Z) (l : list Z) (i : Z) :
  0 <= i -> item (a :: l) (i + 1) = item l i.
Proof.
  intros Hi. unfold item.
  replace (Z.to_nat (i + 1)) with (S (Z.to_nat i)) by lia. reflexivity.
Qed.

(** The index loop of the source computes the consecutive gaps. *)
Lemma differences_of_gaps (l : list Z) : differences_of l = gaps l.
Proof.
  unfold differences_of, range_from.
  induction l as [|a [|b t] IH].
  - reflexivity.
  - reflexivity.
  - change (gaps (a :: b :: t)) with ((b - a) :: gaps (b :: t)).
    rewrite <- IH. clear IH.
    rewrite (len_cons a (b :: t)).
    replace (len (b :: t) + 1 - 1) with (len (b :: t) - 1 + 1) by lia.
    rewrite range_succ by (rewrite len_cons; pose proof (len_nonneg t); lia).
    rewrite !map_cons. f_equal.
    rewrite !map_map. apply map_ext_in.
    intros i Hi. apply range_In in Hi.
    unfold diff_days.
    replace (1 + (i + 1) - 1) with ((1 + i - 1) + 1) by lia.
    replace (1 + (i + 1)) with ((1 + i) + 1) by lia.
    rewrite !item_cons by lia. reflexivity.
Qed.

End Gaps.

(** ** Facts about the [datetime] model *)
Section DatetimeFacts.

Lemma in_class_bounds (lo hi : Z) (c : ascii) :
  in_class lo hi c = true -> lo <= digit_val c <= hi.
Proof.
  unfold in_class. rewrite !andb_true_iff. intros [[_ H1] H2].
  apply Z.leb_le in H1, H2. lia.
Qed.

Lemma is_digit_bounds (c : ascii) : is_digit c = true -> 0 <= digit_val c <= 9.
Proof.
  unfold is_digit, digit_val. rewrite andb_true_iff. intros [H1 H2].
  apply Z.leb_le in H1, H2. lia.
Qed.

Lemma two_chars_bounds (l1 h1 l2 h2 : Z) (s : string) (v : Z) (r : string) :
  In (v, r) (two_chars l1 h1 l2 h2 s) -> 10 * l1 + l2 <= v <= 10 * h1 + h2.
Proof.
  unfold two_chars.
  destruct s as [|a [|b t]]; cbn [In]; try tauto.
  destruct (in_class l1 h1 a) eqn:Ha; cbn [andb In]; [|tauto].
  destruct (in_class l2 h2 b) eqn:Hb; cbn [andb In]; [|tauto].
  intros [H|[]]. apply (f_equal fst) in H. cbn [fst] in H. subst v.
  apply in_class_bounds in Ha, Hb. lia.
Qed.

Lemma one_char_bounds (l h : Z) (s : string) (v : Z) (r : string) :
  In (v, r) (one_char l h s) -> l <= v <= h.
Proof.
  unfold one_char.
  destruct s as [|a t]; cbn [In]; try tauto.
  destruct (in_class l h a) eqn:Ha; cbn [In]; [|tauto].
  intros [H|[]]. apply (f_equal fst) in H. cbn [fst] in H. subst v.
  now apply in_class_bounds.
Qed.

Lemma space_char_bounds (s : string) (v : Z) (r : string) :
  In (v, r) (space_char s) -> 1 <= v <= 9.
Proof.
  unfold space_char.
  destruct s as [|a t]; cbn [In]; try tauto.
  destruct (Ascii.eqb a " "); cbn [In]; [|tauto].
  apply one_char_bounds.
Qed.

Lemma re_m_bounds (s : string) (v : Z) (r : string) :
  In (v, r) (re_m s) -> 1 <= v <= 12.
Proof.
  unfold re_m. rewrite !in_app_iff.
  intros [H|[H|H]];
    [apply two_chars_bounds in H|apply two_chars_bounds in H|apply one_char_bounds in H];
    lia.
Qed.

Lemma re_d_bounds (s : string) (v : Z) (r : string) :
  In (v, r) (re_d s) -> 1 <= v <= 31.
Proof.
  unfold re_d. rewrite !in_app_iff.
  intros [H|[H|[H|[H|H]]]];
    [apply two_chars_bounds in H|apply two_chars_bounds in H
    |apply two_chars_bounds in H|apply one_char_bounds in H
    |apply space_char_bounds in H];
    lia.
Qed.

Lemma re_Y_bounds (s : string) (v : Z) (r : string) :
  In (v, r) (re_Y s) -> 0 <= v <= 9999.
Proof.
  unfold re_Y.
  destruct s as [|a [|b [|c [|d t]]]]; cbn [In]; try tauto.
  destruct (is_digit a) eqn:Ha; cbn [andb In]; [|tauto].
  destruct (is_digit b) eqn:Hb; cbn [andb In]; [|tauto].
  destruct (is_digit c) eqn:Hc; cbn [andb In]; [|tauto].
  destruct (is_digit d) eqn:Hd; cbn [andb In]; [|tauto].
  intros [H|[]]. apply (f_equal fst) in H. cbn [fst] in H. subst v.
  apply is_digit_bounds in Ha, Hb, Hc, Hd. lia.
Qed.

Lemma re_matches_bounds (s : string) (y m d : Z) (r : string) :
  In (y, m, d, r) (re_matches s) ->
  0 <= y <= 9999 /\ 1 <= m <= 12 /\ 1 <= d <= 31.
Proof.
  unfold re_matches. rewrite in_flat_map.
  intros ([y' r1] & Hy & H). rewrite in_flat_map in H.
  destruct H as (r2 & _ & H). rewrite in_flat_map in H.
  destruct H as ([m' r3] & Hm & H). rewrite in_flat_map in H.
  destruct H as (r4 & _ & H). rewrite in_map_iff in H.
  destruct H as ([d' r5] & [= -> -> -> _] & Hd).
  apply re_Y_bounds in Hy. apply re_m_bounds in Hm. apply re_d_bounds in Hd.
  auto.
Qed.

Lemma days_before_year_bounds (y : Z) :
  1 <= y <= 9999 ->
  0 <= days_before_year y /\
  (y <= 9998 -> days_before_year y <= 3651329) /\
  days_before_year y <= 3651694.
Proof.
  intros Hy. unfold days_before_year. cbv zeta.
  Z.div_mod_to_equations. lia.
Qed.

Lemma month_days_bounds (y m d : Z) :
  1 <= m <= 12 -> 1 <= d <= days_in_month y m ->
  1 <= days_before_month y m + d <= (if is_leap y then 366 else 365).
Proof.
  intros Hm Hd.
  assert (m = 1 \/ m = 2 \/ m = 3 \/ m = 4 \/ m = 5 \/ m = 6 \/ m = 7 \/
          m = 8 \/ m = 9 \/ m = 10 \/ m = 11 \/ m = 12) as Hc by lia.
  unfold days_before_month, days_in_month in *.
  destruct (is_leap y);
    repeat destruct Hc as [->|Hc]; try subst m;
    match type of Hd with
    | _ <= _ <= ?e => let v := eval vm_compute in e in change e with v in Hd
    end;
    match goal with
    | |- _ <= ?a + d <= _ => let v := eval vm_compute in a in change a with v
    end;
    lia.
Qed.

Lemma ymd2ord_in_range (y m d : Z) :
  1 <= y <= 9999 -> 1 <= m <= 12 -> 1 <= d <= days_in_month y m ->
  in_range (ymd2ord y m d) = true.
Proof.
  intros Hy Hm Hd.
  pose proof (days_before_year_bounds y Hy) as (H0 & H1 & H2).
  pose proof (month_days_bounds y m d Hm Hd) as H3.
  unfold in_range, ymd2ord, MINORDINAL, MAXORDINAL.
  apply andb_true_iff. rewrite !Z.leb_le.
  destruct (Z.eq_dec y 9999) as [->|Hne].
  - change (is_leap 9999) with false in H3. lia.
  - destruct (is_leap y); lia.
Qed.

(** A parsed date is a date of the years 1 to 9999. *)
Lemma strptime_in_range (s : string) (d : Z) :
  strptime s = Ok d -> in_range d = true.
Proof.
  unfold strptime.
  destruct (re_matches s) as [|[[[y m] d'] rest] t] eqn:Hm; [discriminate|].
  assert (In (y, m, d', rest) (re_matches s)) as Hin by (rewrite Hm; now left).
  apply re_matches_bounds in Hin. destruct Hin as (Hy & Hmo & Hd).
  destruct (negb (String.eqb rest "")); [discriminate|].
  destruct ((MINYEAR <=? y) && (d' <=? days_in_month y m)) eqn:Hv; [|discriminate].
  intros [= <-].
  apply andb_true_iff in Hv. destruct Hv as [Hv1 Hv2].
  apply Z.leb_le in Hv1, Hv2. unfold MINYEAR in Hv1.
  apply ymd2ord_in_range; lia.
Qed.

Lemma strptime_value_in_range (v : value) (d : Z) :
  strptime_value v = Ok d -> in_range d = true.
Proof. destruct v; simpl; try discriminate. apply strptime_in_range. Qed.

Lemma in_range_bounds (o : Z) : in_range o = true <-> 1 <= o <= 3652059.
Proof.
  unfold in_range, MINORDINAL, MAXORDINAL.
  rewrite andb_true_iff, !Z.leb_le. tauto.
Qed.

(** Adding days to a date: the result when the sum is a date of the years
    1 to 9999, an [OverflowError] otherwise (from [timedelta] or from the
    addition). *)
Lemma add_days_spec (o n : Z) :
  in_range o = true ->
  add_days o n = if in_range (o + n) then Ok (o + n) else Raise OverflowError.
Proof.
  intros Ho. apply in_range_bounds in Ho.
  unfold add_days, timedelta, MAX_DELTA_DAYS.
  destruct (in_range (o + n)) eqn:Hs.
  - apply in_range_bounds in Hs.
    replace ((- (999999999) <=? n) && (n <=? 999999999)) with true
      by (symmetry; apply andb_true_iff; rewrite !Z.leb_le; lia).
    simpl. unfold add. apply in_range_bounds in Hs. now rewrite Hs.
  - destruct ((- (999999999) <=? n) && (n <=? 999999999)); simpl; [|reflexivity].
    unfold add. now rewrite Hs.
Qed.

Lemma sub_days_spec (o n : Z) :
  in_range o = true ->
  sub_days o n = if in_range (o - n) then Ok (o - n) else Raise OverflowError.
Proof.
  intros Ho. apply in_range_bounds in Ho.
  unfold sub_days, timedelta, MAX_DELTA_DAYS.
  replace (o - n) with (o + - n) by lia.
  destruct (in_range (o + - n)) eqn:Hs.
  - apply in_range_bounds in Hs.
    replace ((- (999999999) <=? n) && (n <=? 999999999)) with true
      by (symmetry; apply andb_true_iff; rewrite !Z.leb_le; lia).
    simpl. unfold add. apply in_range_bounds in Hs. now rewrite Hs.
  - destruct ((- (999999999) <=? n) && (n <=? 999999999)); simpl; [|reflexivity].
    unfold add. now rewrite Hs.
Qed.

(** Neither the empty string nor the sentinel parses. *)
Lemma strptime_empty : strptime "" = Raise ValueError.
Proof. reflexivity. Qed.

Lemma strptime_sentinel : strptime NEED_MORE_DATA = Raise ValueError.
Proof. reflexivity. Qed.

(** Whole days from midnight of [p] to a later instant. *)
Lemma days_since_spec (t : datetime) (p : Z) :
  0 <= micros t < DAY_MICROS -> days_since t p = ordinal t - p.
Proof.
  intros Hm. unfold days_since.
  rewrite Z.add_comm, Z.div_add by (unfold DAY_MICROS; lia).
  rewrite Z.div_small by exact Hm. lia.
Qed.

End DatetimeFacts.

(** ** The analysis on a history with enough valid dates *)
Section AnalysisFacts.

Lemma collect_fold (h : list period) (acc : list Z) :
  fold_left collect_step h acc = acc ++ valid_dates h.
Proof.
  revert acc. induction h as [|p t IH]; intros acc; simpl.
  - now rewrite app_nil_r.
  - rewrite IH. unfold collect_step, valid_date.
    destruct (strptime_value (start p)); simpl; [|reflexivity].
    now rewrite <- app_assoc.
Qed.

(** The parsing loop keeps the valid dates, in the order of the history. *)
Lemma parse_dates_valid (h : list period) : parse_dates h = valid_dates h.
Proof. unfold parse_dates. now rewrite collect_fold. Qed.

Lemma valid_dates_in_range (h : list period) :
  Forall (fun d => in_range d = true) (valid_dates h).
Proof.
  induction h as [|p t IH]; simpl; [constructor|].
  apply Forall_app. split; [|exact IH].
  unfold valid_date. destruct (strptime_value (start p)) eqn:Hp; constructor.
  - now apply strptime_value_in_range in Hp.
  - constructor.
Qed.

Lemma valid_dates_len (h : list period) : len (valid_dates h) <= len h.
Proof.
  induction h as [|p t IH]; simpl; [reflexivity|].
  rewrite len_app, len_cons. unfold valid_date.
  destruct (strptime_value (start p)); unfold len at 1; simpl List.length; lia.
Qed.

(** The four date computations that end the analysis succeed together,
    exactly when [analysis_in_range] holds. *)
Lemma project_dates {B : Type} (latest avg : Z) (k : Z -> Z -> Z -> Z -> result B) :
  in_range latest = true ->
  (next_period <- add_days latest avg ;;
   ovulation_date <- sub_days next_period 14 ;;
   fertile_start <- sub_days ovulation_date 3 ;;
   fertile_end <- add_days ovulation_date 1 ;;
   k next_period ovulation_date fertile_start fertile_end)
  = if analysis_in_range latest avg
    then k (latest + avg) (latest + avg - 14) (latest + avg - 14 - 3)
           (latest + avg - 14 + 1)
    else Raise OverflowError.
Proof.
  intros Hl. rewrite add_days_spec by exact Hl.
  unfold analysis_in_range, MINORDINAL, MAXORDINAL.
  destruct (in_range (latest + avg)) eqn:H1; cbn [bind].
  - rewrite sub_days_spec by exact H1.
    destruct (in_range (latest + avg - 14)) eqn:H2; cbn [bind].
    + rewrite sub_days_spec by exact H2.
      destruct (in_range (latest + avg - 14 - 3)) eqn:H3; cbn [bind].
      * rewrite add_days_spec by exact H2.
        apply in_range_bounds in H1, H2, H3.
        replace (in_range (latest + avg - 14 + 1)) with true
          by (symmetry; apply in_range_bounds; lia).
        cbn [bind].
        replace ((1 <=? latest + avg - 17) && (latest + avg <=? 3652059)) with true
          by (symmetry; apply andb_true_iff; rewrite !Z.leb_le; lia).
        reflexivity.
      * apply in_range_bounds in H1, H2.
        replace ((1 <=? latest + avg - 17) && (latest + avg <=? 3652059)) with false;
          [reflexivity|].
        symmetry. apply andb_false_iff. left. apply Z.leb_gt.
        destruct (Z_lt_le_dec (latest + avg - 17) 1) as [Hlt|Hge]; [exact Hlt|].
        exfalso. assert (in_range (latest + avg - 14 - 3) = true) as Hc
          by (apply in_range_bounds; lia). congruence.
    + apply in_range_bounds in H1.
      replace ((1 <=? latest + avg - 17) && (latest + avg <=? 3652059)) with false;
        [reflexivity|].
      symmetry. apply andb_false_iff. left. apply Z.leb_gt.
      destruct (Z_lt_le_dec (latest + avg - 17) 1) as [Hlt|Hge]; [exact Hlt|].
      exfalso. assert (in_range (latest + avg - 14) = true) as Hc
        by (apply in_range_bounds; lia). congruence.
  - replace ((1 <=? latest + avg - 17) && (latest + avg <=? 3652059)) with false;
      [reflexivity|].
    symmetry. apply andb_false_iff.
    destruct (Z_lt_le_dec (latest + avg - 17) 1) as [Hlt|Hge];
      [left; now apply Z.leb_gt|].
    right. apply Z.leb_gt.
    destruct (Z_lt_le_dec 3652059 (latest + avg)) as [Hgt|Hle]; [exact Hgt|].
    exfalso. assert (in_range (latest + avg) = true) as Hc
      by (apply in_range_bounds; lia). congruence.
Qed.

(** With at least two valid dates the analysis is a function of the sorted
    valid dates: it returns [analysis_of] when the projected dates are in
    range and raises [OverflowError] otherwise. *)
Lemma analysis_enough_data (h : list period) :
  2 <= len (valid_dates h) ->
  let dates := sort (valid_dates h) in
  let g := gaps dates in
  let avg := sum g / len g in
  let latest := last dates 0 in
  exists hi lo,
    is_max hi g /\ is_min lo g /\
    calculate_cycle_analysis h =
      if analysis_in_range latest avg
      then Ok (analysis_of latest avg (hi - lo))
      else Raise OverflowError.
Proof.
  intros Hn dates g avg latest.
  assert (len dates = len (valid_dates h)) as Hlen
    by (unfold dates, len; now rewrite sort_length).
  assert (len g = len dates - 1) as Hg
    by (unfold g; rewrite gaps_length; lia).
  assert (g <> []) as Hne
    by (intros E; rewrite E in Hg; unfold len in Hg at 1; simpl in Hg; lia).
  destruct (py_max_spec g Hne) as (hi & Ehi & Hhi).
  destruct (py_min_spec g Hne) as (lo & Elo & Hlo).
  exists hi, lo. split; [exact Hhi|]. split; [exact Hlo|].
  unfold calculate_cycle_analysis.
  pose proof (valid_dates_len h) as Hle.
  replace (len h <? 2) with false by (symmetry; apply Z.ltb_ge; lia).
  rewrite parse_dates_valid.
  replace (len (valid_dates h) <? 2) with false by (symmetry; apply Z.ltb_ge; lia).
  cbv zeta. rewrite differences_of_gaps.
  fold dates. fold g.
  unfold floordiv.
  replace (len g =? 0) with false by (symmetry; apply Z.eqb_neq; lia).
  cbn [bind]. rewrite Ehi, Elo. cbn [bind].
  fold avg. fold latest.
  assert (in_range latest = true) as Hl.
  { assert (dates <> []) as Hd
      by (intros E; rewrite E in Hlen; unfold len in Hlen at 1; simpl in Hlen; lia).
    destruct (sorted_last_max dates 0 (sort_sorted _) Hd) as (Hin & _).
    fold latest in Hin.
    pose proof (valid_dates_in_range h) as Hall.
    rewrite Forall_forall in Hall. apply Hall.
    eapply Permutation_in; [apply sort_perm|exact Hin]. }
  rewrite (project_dates latest avg
             (fun _ ov fs fe =>
                Ok {| cycle_length := avg;
                      period_duration := 5;
                      cycle_regularity := classify (hi - lo);
                      next_ovulation := strftime ov;
                      fertile_window := (strftime fs ++ " to " ++ strftime fe)%string;
                      last_period_start := Str (strftime latest) |}) Hl).
  reflexivity.
Qed.

End AnalysisFacts.

(** ** Statistics of the cycle: [calculate_cycle_analysis] *)

Lemma classify_cases (v : Z) :
  (classify v = "Very Regular" <-> v <= 3) /\
  (classify v = "Regular" <-> 3 < v <= 7) /\
  (classify v = "Slightly Irregular" <-> 7 < v <= 10) /\
  (classify v = "Irregular" <-> 10 < v).
Proof.
  unfold classify.
  destruct (v <=? 3) eqn:H3; [apply Z.leb_le in H3|apply Z.leb_gt in H3];
    [|destruct (v <=? 7) eqn:H7; [apply Z.leb_le in H7|apply Z.leb_gt in H7];
      [|destruct (v <=? 10) eqn:H10;
        [apply Z.leb_le in H10|apply Z.leb_gt in H10]]];
    repeat split; intros; try discriminate; try lia.
Qed.

Lemma is_max_unique (l : list Z) (a b : Z) : is_max a l -> is_max b l -> a = b.
Proof.
  intros [Ha Hla] [Hb Hlb]. rewrite Forall_forall in Hla, Hlb.
  apply Hla in Hb. apply Hlb in Ha. lia.
Qed.

Lemma is_min_unique (l : list Z) (a b : Z) : is_min a l -> is_min b l -> a = b.
Proof.
  intros [Ha Hla] [Hb Hlb]. rewrite Forall_forall in Hla, Hlb.
  apply Hla in Hb. apply Hlb in Ha. lia.
Qed.

(** C1 (as the code has it).  For a history with at least two valid start
    dates, the valid dates sorted ascending have one gap fewer than dates,
    none of them negative and their sum the span from the earliest to the
    latest date, and [calculate_cycle_analysis] returns as [cycle_length] the
    floor of the average of these gaps (27 for the gaps 20 and 35), provided
    the dates it projects from the latest start (next period, ovulation,
    fertile window) are dates of the years 1 to 9999; when they are not, it
    raises [OverflowError] and returns nothing. *)
Theorem C1_cycle_length_floor_average (h : list period) :
  2 <= len (valid_dates h) ->
  let dates := sort (valid_dates h) in
  let g := gaps dates in
  let avg := sum g / len g in
  let latest := last dates 0 in
  StronglySorted Z.le dates /\
  Permutation dates (valid_dates h) /\
  len g = len (valid_dates h) - 1 /\
  Forall (fun x => 0 <= x) g /\
  sum g = latest - hd 0 dates /\
  avg * len g <= sum g < (avg + 1) * len g /\
  (g = [20; 35] -> avg = 27) /\
  (analysis_in_range latest avg = true ->
   exists r, calculate_cycle_analysis h = Ok r /\ cycle_length r = avg) /\
  (analysis_in_range latest avg = false ->
   calculate_cycle_analysis h = Raise OverflowError).
Proof.
  intros Hn dates g avg latest.
  assert (len g = len (valid_dates h) - 1) as Hg.
  { assert (len dates = len (valid_dates h)) as Hd
      by (unfold dates, len; now rewrite sort_length).
    unfold g. rewrite gaps_length, Hd. lia. }
  split; [apply sort_sorted|].
  split; [apply sort_perm|].
  split; [exact Hg|].
  split; [apply gaps_nonneg, sort_sorted|].
  split.
  { apply gaps_sum. intros E.
    assert (len dates = len (valid_dates h)) as Hd
      by (unfold dates, len; now rewrite sort_length).
    rewrite E in Hd. unfold len in Hd at 1. simpl in Hd. lia. }
  split.
  { unfold avg. pose proof (Z.mul_div_le (sum g) (len g)).
    pose proof (Z.mul_succ_div_gt (sum g) (len g)). nia. }
  split.
  { intros E. unfold avg. rewrite E. reflexivity. }
  destruct (analysis_enough_data h Hn) as (hi & lo & _ & _ & E).
  fold dates g avg latest in E.
  split; intros Hr; rewrite Hr in E.
  - eexists. split; [exact E|reflexivity].
  - exact E.
Qed.

Lemma C1_cycle_length_floor_average_witness :
  let h := history_of ["2024-01-01"; "2024-01-21"; "2024-02-25"] in
  2 <= len (valid_dates h) /\
  gaps (sort (valid_dates h)) = [20; 35] /\
  exists r, calculate_cycle_analysis h = Ok r /\ cycle_length r = 27.
Proof.
  intros h.
  assert (2 <= len (valid_dates h)) as Hn by (vm_compute; discriminate).
  split; [exact Hn|].
  split; [reflexivity|].
  destruct (C1_cycle_length_floor_average h Hn)
    as (_ & _ & _ & _ & _ & _ & _ & Hok & _).
  destruct (Hok eq_refl) as (r & Hr & Hc).
  exists r. split; [exact Hr|]. rewrite Hc. reflexivity.
Defined.

(** C1, refuted as stated: two valid starts 20 days apart in December 9999.
    The average gap is 20, but the next period would fall in the year 10000
    and the analysis raises instead of returning a cycle length. *)
Lemma C1_counterexample :
  let h := history_of ["9999-12-01"; "9999-12-21"] in
  len (valid_dates h) = 2 /\
  gaps (sort (valid_dates h)) = [20] /\
  calculate_cycle_analysis h = Raise OverflowError /\
  ~ (exists r, calculate_cycle_analysis h = Ok r /\ cycle_length r = 20).
Proof.
  intros h. split; [reflexivity|]. split; [reflexivity|].
  assert (calculate_cycle_analysis h = Raise OverflowError) as E
    by (vm_compute; reflexivity).
  split; [exact E|].
  intros (r & Hr & _). rewrite E in Hr. discriminate.
Qed.

(** C2.  A history with fewer than two valid start dates gets the
    insufficient-data result: cycle length 28, period duration 5, the three
    sentinels, and as last period start the raw start of the first record
    of the history, or "No data" for the empty history. *)
Theorem C2_insufficient_data (h : list period) :
  len (valid_dates h) < 2 ->
  exists r,
    calculate_cycle_analysis h = Ok r /\
    cycle_length r = 28 /\
    period_duration r = 5 /\
    cycle_regularity r = "Insufficient data" /\
    next_ovulation r = "Need more data" /\
    fertile_window r = "Need more data" /\
    (h = [] -> last_period_start r = Str "No data") /\
    (forall p t, h = p :: t -> last_period_start r = start p).
Proof.
  intros Hn. exists (insufficient_data h).
  split.
  - unfold calculate_cycle_analysis.
    destruct (len h <? 2); [reflexivity|].
    rewrite parse_dates_valid.
    replace (len (valid_dates h) <? 2) with true
      by (symmetry; apply Z.ltb_lt; exact Hn).
    reflexivity.
  - repeat (split; [reflexivity|]).
    split.
    + intros ->. reflexivity.
    + intros p t ->. reflexivity.
Qed.

Lemma C2_insufficient_data_witness :
  let h := history_of ["2024-01-01"] in
  len (valid_dates h) < 2 /\
  exists r,
    calculate_cycle_analysis h = Ok r /\
    cycle_regularity r = "Insufficient data" /\
    last_period_start r = Str "2024-01-01".
Proof.
  intros h.
  assert (len (valid_dates h) < 2) as Hn by (vm_compute; reflexivity).
  split; [exact Hn|].
  destruct (C2_insufficient_data h Hn) as (r & Hr & _ & _ & Hreg & _ & _ & _ & Hfirst).
  exists r. split; [exact Hr|]. split; [exact Hreg|].
  apply (Hfirst (mkPeriod "2024-01-01" (Str "2024-01-01")) []). reflexivity.
Defined.




(** C7 (as the code has it).  For a history with at least two valid start
    dates, let the variance be the greatest gap minus the least gap of the
    sorted valid dates.  When the projected dates are dates of the years 1
    to 9999 the analysis returns "Very Regular" iff variance <= 3, "Regular"
    iff 3 < variance <= 7, "Slightly Irregular" iff 7 < variance <= 10 and
    "Irregular" iff variance > 10; otherwise it raises [OverflowError]. *)
Theorem C7_regularity_classes (h : list period) :
  2 <= len (valid_dates h) ->
  let dates := sort (valid_dates h) in
  let g := gaps dates in
  let avg := sum g / len g in
  let latest := last dates 0 in
  exists hi lo,
    is_max hi g /\ is_min lo g /\
    (analysis_in_range latest avg = true ->
     exists r,
       calculate_cycle_analysis h = Ok r /\
       (cycle_regularity r = "Very Regular" <-> hi - lo <= 3) /\
       (cycle_regularity r = "Regular" <-> 3 < hi - lo <= 7) /\
       (cycle_regularity r = "Slightly Irregular" <-> 7 < hi - lo <= 10) /\
       (cycle_regularity r = "Irregular" <-> 10 < hi - lo)) /\
    (analysis_in_range latest avg = false ->
     calculate_cycle_analysis h = Raise OverflowError).
Proof.
  intros Hn dates g avg latest.
  destruct (analysis_enough_data h Hn) as (hi & lo & Hhi & Hlo & E).
  fold dates g avg latest in E.
  exists hi, lo. split; [exact Hhi|]. split; [exact Hlo|].
  split; intros Hr; rewrite Hr in E.
  - eexists. split; [exact E|]. apply classify_cases.
  - exact E.
Qed.

Lemma C7_regularity_classes_witness :
  let h := history_of ["2024-01-01"; "2024-01-21"; "2024-02-25"] in
  2 <= len (valid_dates h) /\
  exists r, calculate_cycle_analysis h = Ok r /\ cycle_regularity r = "Irregular".
Proof.
  intros h.
  assert (2 <= len (valid_dates h)) as Hn by (vm_compute; discriminate).
  split; [exact Hn|].
  destruct (C7_regularity_classes h Hn) as (hi & lo & Hhi & Hlo & Hok & _).
  destruct (Hok eq_refl) as (r & Hr & _ & _ & _ & Hirr).
  exists r. split; [exact Hr|]. apply Hirr.
  assert (is_max 35 [20; 35]) as M
    by (split; [right; now left|repeat constructor; lia]).
  assert (is_min 20 [20; 35]) as m
    by (split; [now left|repeat constructor; lia]).
  rewrite (is_max_unique _ _ _ Hhi M), (is_min_unique _ _ _ Hlo m). lia.
Defined.

(** C7, refuted as stated: two valid starts 4 days apart in January of the
    year 1.  The single gap gives variance 0, which the claim classifies as
    "Very Regular", but the ovulation date would fall before 0001-01-01 and
    the analysis raises instead of classifying. *)
Lemma C7_counterexample :
  let h := history_of ["0001-01-01"; "0001-01-05"] in
  len (valid_dates h) = 2 /\
  gaps (sort (valid_dates h)) = [4] /\
  calculate_cycle_analysis h = Raise OverflowError /\
  ~ (exists r, calculate_cycle_analysis h = Ok r
               /\ cycle_regularity r = "Very Regular").
Proof.
  intros h.
  assert (calculate_cycle_analysis h = Raise OverflowError) as E
    by (vm_compute; reflexivity).
  do 2 (split; [vm_compute; reflexivity|]).
  split; [exact E|].
  intros (r & Hr & _). rewrite E in Hr. discriminate.
Qed.

(** C9.  Two histories with at least two valid start dates each and the same
    multiset of valid dates get the same outcome from the analysis, whatever
    the order of their records and whatever records with malformed starts
    they contain. *)
Theorem C9_analysis_depends_on_valid_dates (h1 h2 : list period) :
  2 <= len (valid_dates h1) ->
  2 <= len (valid_dates h2) ->
  Permutation (valid_dates h1) (valid_dates h2) ->
  calculate_cycle_analysis h1 = calculate_cycle_analysis h2.
Proof.
  intros H1 H2 Hp.
  destruct (analysis_enough_data h1 H1) as (hi1 & lo1 & Hhi1 & Hlo1 & E1).
  destruct (analysis_enough_data h2 H2) as (hi2 & lo2 & Hhi2 & Hlo2 & E2).
  rewrite E1, E2. clear E1 E2.
  rewrite <- (sort_permutation _ _ Hp) in *.
  rewrite (is_max_unique _ _ _ Hhi1 Hhi2), (is_min_unique _ _ _ Hlo1 Hlo2).
  reflexivity.
Qed.

Lemma C9_analysis_depends_on_valid_dates_witness :
  let h1 := history_of ["2024-02-25"; "not a date"; "2024-01-01"; "2024-01-21"] in
  let h2 := history_of ["2024-01-01"; "2024-1-21"; ""; "2024-02-25"; "2024-02-30"] in
  Permutation (valid_dates h1) (valid_dates h2) /\
  calculate_cycle_analysis h1 = calculate_cycle_analysis h2 /\
  exists r, calculate_cycle_analysis h1 = Ok r.
Proof.
  intros h1 h2.
  assert (Permutation (valid_dates h1) (valid_dates h2)) as Hp.
  { change (valid_dates h1) with [738941; 738886; 738906].
    change (valid_dates h2) with [738886; 738906; 738941].
    apply (Permutation_cons_append [738886; 738906] 738941). }
  split; [exact Hp|].
  split.
  - apply C9_analysis_depends_on_valid_dates;
      [vm_compute; discriminate|vm_compute; discriminate|exact Hp].
  - eexists. vm_compute. reflexivity.
Defined.

(** ** The calendar loops *)
Section CalendarFacts.

(** The inner loop appends the days of one period, or raises. *)
Lemma inner_loop (next_period i : Z) (days : list Z) (acc : list prediction) :
  in_range next_period = true ->
  for_each days
    (fun day predictions =>
       period_date <- add_days next_period day ;;
       Ok (predictions ++ [entry_of period_date i])) acc
  = if forallb (fun day => in_range (next_period + day)) days
    then Ok (acc ++ map (fun day => entry_of (next_period + day) i) days)
    else Raise OverflowError.
Proof.
  intros Hn. revert acc.
  induction days as [|day t IH]; intros acc; cbn [for_each forallb map].
  - now rewrite app_nil_r.
  - rewrite add_days_spec by exact Hn.
    destruct (in_range (next_period + day)); cbn [bind andb]; [|reflexivity].
    rewrite IH. destruct (forallb _ t); [|reflexivity].
    now rewrite <- app_assoc.
Qed.

(** The outer loop appends the periods of the cycles, or raises. *)
Lemma outer_loop (ref c pd : Z) (cycles : list Z) (acc : list prediction) :
  in_range ref = true ->
  for_each cycles
    (fun i predictions =>
       next_period <- add_days ref (c * (i + 1)) ;;
       for_each (range pd)
         (fun day predictions =>
            period_date <- add_days next_period day ;;
            Ok (predictions ++ [entry_of period_date i]))
         predictions) acc
  = if forallb (fun i =>
         in_range (ref + c * (i + 1))
         && forallb (fun day => in_range (ref + c * (i + 1) + day)) (range pd))
       cycles
    then Ok (acc ++ flat_map (cycle_entries ref c pd) cycles)
    else Raise OverflowError.
Proof.
  intros Hr. revert acc.
  induction cycles as [|i t IH]; intros acc; cbn [for_each forallb flat_map].
  - now rewrite app_nil_r.
  - rewrite add_days_spec by exact Hr.
    destruct (in_range (ref + c * (i + 1))) eqn:Hn; cbn [bind andb]; [|reflexivity].
    rewrite inner_loop by exact Hn.
    destruct (forallb _ (range pd)); cbn [bind andb]; [|reflexivity].
    rewrite IH. destruct (forallb _ t); [|reflexivity].
    unfold cycle_entries at 2. now rewrite <- app_assoc.
Qed.

(** The calendar of a history whose last valid date is [ref]. *)
Lemma calendar_spec (h : list period) (front : list Z) (ref c pd months : Z) :
  valid_dates h = front ++ [ref] ->
  calculate_period_calendar h c pd months
  = if calendar_in_range ref c pd months
    then Ok (calendar_entries ref c pd months)
    else Raise OverflowError.
Proof.
  intros Hv. unfold calculate_period_calendar.
  pose proof (valid_dates_len h) as Hle.
  assert (1 <= len (valid_dates h)) as H1.
  { rewrite Hv, len_app, len_cons. pose proof (len_nonneg front).
    unfold len at 2. simpl. lia. }
  replace (len h <? 1) with false by (symmetry; apply Z.ltb_ge; lia).
  rewrite parse_dates_valid.
  replace (len (valid_dates h) <? 1) with false by (symmetry; apply Z.ltb_ge; lia).
  rewrite Hv, last_last.
  assert (in_range ref = true) as Hr.
  { pose proof (valid_dates_in_range h) as Hall.
    rewrite Hv, Forall_app in Hall. destruct Hall as [_ Hall].
    now inversion Hall. }
  rewrite outer_loop by exact Hr. reflexivity.
Qed.

Lemma calendar_no_valid_date (h : list period) (c pd months : Z) :
  valid_dates h = [] -> calculate_period_calendar h c pd months = Ok [].
Proof.
  intros Hv. unfold calculate_period_calendar.
  destruct (len h <? 1); [reflexivity|].
  rewrite parse_dates_valid, Hv. reflexivity.
Qed.

Lemma cycle_entries_length (ref c pd i : Z) :
  List.length (cycle_entries ref c pd i) = Z.to_nat pd.
Proof. unfold cycle_entries. now rewrite length_map, range_length. Qed.



(** In a list of blocks of [n] elements each, element [j] of block [k] is
    at position [k * n + j]. *)
Lemma flat_map_blocks_nth {A B : Type} (f : A -> list B) (n : nat) (l : list A)
  (k j : nat) (x : A) :
  (forall y, List.length (f y) = n) ->
  nth_error l k = Some x -> (j < n)%nat ->
  nth_error (flat_map f l) (k * n + j) = nth_error (f x) j.
Proof.
  intros Hf. revert k.
  induction l as [|y t IH]; intros k Hk Hj.
  - destruct k; discriminate.
  - destruct k as [|k']; simpl in Hk |- *.
    + injection Hk as ->. apply nth_error_app1. now rewrite Hf.
    + rewrite nth_error_app2 by (rewrite Hf; lia).
      rewrite Hf. replace (n + k' * n + j - n)%nat with (k' * n + j)%nat by lia.
      now apply IH.
Qed.

Lemma range_nth (n : Z) (k : nat) :
  (k < Z.to_nat n)%nat -> nth_error (range n) k = Some (Z.of_nat k).
Proof.
  intros Hk. unfold range.
  rewrite nth_error_map, nth_error_nth' with (d := 0%nat)
    by (rewrite length_seq; exact Hk).
  rewrite seq_nth by exact Hk. reflexivity.
Qed.

(** Day [day] of cycle [i + 1] is at position [i * period_duration + day]. *)
Lemma calendar_entries_nth (ref c pd months i day : Z) :
  0 <= i < months -> 0 <= day < pd ->
  nth_error (calendar_entries ref c pd months) (Z.to_nat (i * pd + day))
  = Some (entry_of (ref + c * (i + 1) + day) i).
Proof.
  intros Hi Hd. unfold calendar_entries.
  replace (Z.to_nat (i * pd + day))
    with (Z.to_nat i * Z.to_nat pd + Z.to_nat day)%nat by nia.
  rewrite (flat_map_blocks_nth _ (Z.to_nat pd) _ _ _ i).
  - unfold cycle_entries. rewrite nth_error_map, range_nth by lia.
    cbn [option_map]. now rewrite Z2Nat.id by lia.
  - intros. apply cycle_entries_length.
  - rewrite range_nth by lia. now rewrite Z2Nat.id by lia.
  - lia.
Qed.

End CalendarFacts.

(** ** Prediction, calendar and delay *)

(** C3 (the code departs from it).  The analysis and the calendar skip a
    start that does not parse, but [predict_next_period] parses the last
    start outside any [try]: on the history the dashboard builds after a user
    stores the start "soon", the first two return their sentinels and the
    prediction raises [ValueError]. *)
Theorem C3_predict_raises_on_malformed_start :
  let h := [mkPeriod "2024-03-01" (Str "soon")] in
  calculate_cycle_analysis h = Ok (insufficient_data h) /\
  cycle_length (insufficient_data h) = 28 /\
  calculate_period_calendar h 28 5 6 = Ok [] /\
  predict_next_period h 28 = Raise ValueError.
Proof. repeat split. Qed.







(** A value that parses is a non-empty string other than the sentinel, so
    the guard of [get_period_delay] lets it through. *)
Lemma parsed_passes_guard (v : value) (p : Z) :
  strptime_value v = Ok p ->
  negb (truthy v) || value_eqb v (Str NEED_MORE_DATA) = false.
Proof.
  destruct v as [s| |]; simpl; try discriminate.
  intros Hs. apply orb_false_iff. split.
  - apply negb_false_iff, negb_true_iff.
    destruct (String.eqb_spec s ""); [|reflexivity].
    subst s. rewrite strptime_empty in Hs. discriminate.
  - destruct (String.eqb_spec s NEED_MORE_DATA); [|reflexivity].
    subst s. rewrite strptime_sentinel in Hs. discriminate.
Qed.

(** C8 (as the code has it).  [get_period_delay] returns [None] for a falsy
    value (empty string, null), for the sentinel and for a value that does
    not parse.  For a value that parses to the date [p], with the clock
    reading [today]: on a later date it returns the positive number of whole
    days from [p] to that date; on an earlier date it returns [None]; on the
    date [p] itself it returns 0 once the time of day is past midnight and
    [None] exactly at midnight. *)
Theorem C8_period_delay (today : datetime) (v : value) :
  wf_datetime today ->
  (truthy v = false -> get_period_delay today v = None) /\
  (v = Str NEED_MORE_DATA -> get_period_delay today v = None) /\
  ((forall p, strptime_value v <> Ok p) -> get_period_delay today v = None) /\
  (forall p,
     strptime_value v = Ok p ->
     (p < ordinal today ->
      get_period_delay today v = Some (ordinal today - p) /\ 0 < ordinal today - p) /\
     (ordinal today < p -> get_period_delay today v = None) /\
     (ordinal today = p -> 0 < micros today -> get_period_delay today v = Some 0) /\
     (ordinal today = p -> micros today = 0 -> get_period_delay today v = None)).
Proof.
  intros [_ Hm].
  split; [|split; [|split]].
  - intros Hf. unfold get_period_delay. now rewrite Hf.
  - intros ->. reflexivity.
  - intros Hno. unfold get_period_delay.
    destruct (negb (truthy v) || value_eqb v (Str NEED_MORE_DATA)); [reflexivity|].
    destruct (strptime_value v) as [p|e] eqn:Hp; [|reflexivity].
    now destruct (Hno p).
  - intros p Hp. unfold get_period_delay.
    rewrite (parsed_passes_guard v p Hp), Hp.
    unfold after_midnight_of. rewrite days_since_spec by exact Hm.
    repeat split.
    + replace (p <? ordinal today) with true by (symmetry; apply Z.ltb_lt; lia).
      reflexivity.
    + lia.
    + intros Hlt.
      replace (p <? ordinal today) with false by (symmetry; apply Z.ltb_ge; lia).
      replace (p =? ordinal today) with false by (symmetry; apply Z.eqb_neq; lia).
      reflexivity.
    + intros <- Hpos.
      rewrite Z.ltb_irrefl, Z.eqb_refl.
      replace (0 <? micros today) with true by (symmetry; apply Z.ltb_lt; lia).
      cbn. f_equal. lia.
    + intros <- Hz.
      rewrite Z.ltb_irrefl, Z.eqb_refl, Hz. reflexivity.
Qed.

Lemma C8_period_delay_witness :
  let today := mkDatetime 738895 0 in
  wf_datetime today /\
  strptime_value (Str "2024-01-01") = Ok 738886 /\
  strftime (ordinal today) = "2024-01-10" /\
  get_period_delay today (Str "2024-01-01") = Some 9.
Proof.
  intros today.
  assert (wf_datetime today) as Hwf by (vm_compute; intuition discriminate).
  split; [exact Hwf|]. split; [reflexivity|]. split; [reflexivity|].
  destruct (C8_period_delay today (Str "2024-01-01") Hwf) as (_ & _ & _ & Hp).
  destruct (Hp 738886 eq_refl) as (Hlate & _).
  destruct Hlate as (E & _); [vm_compute; reflexivity|].
  rewrite E. reflexivity.
Defined.

(** C8, refuted as stated: the prediction is 2024-01-01 and the clock reads
    10:00 on 2024-01-01.  The current date is on the predicted date, for
    which the claim gives null, but the result is 0. *)
Lemma C8_counterexample :
  let today := mkDatetime 738886 36000000000 in
  wf_datetime today /\
  strptime_value (Str "2024-01-01") = Ok 738886 /\
  ordinal today <= 738886 /\
  get_period_delay today (Str "2024-01-01") = Some 0 /\
  get_period_delay today (Str "2024-01-01") <> None.
Proof.
  intros today.
  split; [vm_compute; intuition discriminate|].
  split; [reflexivity|]. split; [vm_compute; discriminate|].
  split; [reflexivity|discriminate].
Qed.

Lemma valid_dates_app (h k : list period) :
  valid_dates (h ++ k) = valid_dates h ++ valid_dates k.
Proof. unfold valid_dates. apply flat_map_app. Qed.

(** C10 (as the code has it).  For a non-empty history whose starts all
    parse, a period duration and a number of months of at least 1: whenever
    the calendar returns, it has a first entry, and the date of that entry is
    the string [predict_next_period] returns for the same history and cycle
    length. *)
Theorem C10_calendar_starts_at_prediction
  (h : list period) (c pd months : Z) (entries : list prediction) :
  h <> [] ->
  Forall parses h ->
  1 <= pd -> 1 <= months ->
  calculate_period_calendar h c pd months = Ok entries ->
  exists e rest,
    entries = e :: rest /\ predict_next_period h c = Ok (date e).
Proof.
  intros Hne Hall Hpd Hmo Hcal.
  destruct (exists_last Hne) as (front & p & ->).
  apply Forall_app in Hall. destruct Hall as [_ Hp].
  inversion Hp as [|? ? [d Hd] _]; subst.
  assert (valid_dates (front ++ [p]) = valid_dates front ++ [d]) as Hv.
  { rewrite valid_dates_app. simpl. unfold valid_date. rewrite Hd. reflexivity. }
  rewrite (calendar_spec _ _ _ c pd months Hv) in Hcal.
  destruct (calendar_in_range d c pd months) eqn:Hr; [|discriminate].
  injection Hcal as <-.
  unfold calendar_in_range in Hr. unfold calendar_entries.
  replace months with ((months - 1) + 1) in Hr |- * by lia.
  rewrite range_succ in Hr |- * by lia.
  cbn [forallb flat_map] in Hr |- *.
  apply andb_true_iff in Hr. destruct Hr as [Hr _].
  apply andb_true_iff in Hr. destruct Hr as [Hr _].
  assert (range pd = 0 :: map (fun i => i + 1) (range (pd - 1))) as Hrp
    by (rewrite <- range_succ by lia; f_equal; lia).
  unfold cycle_entries at 1. rewrite Hrp. cbn [map app].
  eexists. eexists. split; [reflexivity|].
  cbn [date entry_of].
  unfold predict_next_period.
  replace (len (front ++ [p]) <? 1) with false.
  - rewrite last_last, Hd. cbn [bind].
    rewrite add_days_spec by (now apply strptime_value_in_range in Hd).
    replace (d + c * (0 + 1) + 0) with (d + c) by lia.
    replace (d + c * (0 + 1)) with (d + c) in Hr by lia.
    rewrite Hr. reflexivity.
  - symmetry. apply Z.ltb_ge. rewrite len_app.
    pose proof (len_nonneg front). unfold len at 2. simpl. lia.
Qed.

Lemma C10_calendar_starts_at_prediction_witness :
  let h := history_of ["2024-03-01"; "2024-01-01"] in
  h <> [] /\ Forall parses h /\
  exists e rest,
    calculate_period_calendar h 28 5 6 = Ok (e :: rest) /\
    date e = "2024-01-29" /\
    predict_next_period h 28 = Ok (date e).
Proof.
  intros h.
  assert (h <> []) as Hne by discriminate.
  assert (Forall parses h) as Hall
    by (repeat constructor; eexists; reflexivity).
  split; [exact Hne|]. split; [exact Hall|].
  assert (calculate_period_calendar h 28 5 6
          = Ok (calendar_entries 738886 28 5 6)) as E by reflexivity.
  destruct (C10_calendar_starts_at_prediction h 28 5 6 _ Hne Hall
              ltac:(lia) ltac:(lia) E) as (e & rest & Hes & Hpred).
  exists e, rest. split; [now rewrite E, Hes|].
  split; [|exact Hpred].
  assert (hd_error (calendar_entries 738886 28 5 6) = Some e) as Hhd
    by (rewrite Hes; reflexivity).
  vm_compute in Hhd. injection Hhd as <-. reflexivity.
Defined.

(** C10, refuted as stated: every start of the history parses and the
    parameters are the defaults of the calendar, but the calendar has no first
    entry to compare: the prediction is 9999-12-29 and the calendar raises,
    its second cycle being past 9999-12-31. *)
Lemma C10_counterexample :
  let h := history_of ["9999-12-01"] in
  h <> [] /\ Forall parses h /\
  predict_next_period h 28 = Ok "9999-12-29" /\
  calculate_period_calendar h 28 5 6 = Raise OverflowError /\
  ~ (exists e rest,
       calculate_period_calendar h 28 5 6 = Ok (e :: rest)
       /\ predict_next_period h 28 = Ok (date e)).
Proof.
  intros h. split; [discriminate|].
  split; [repeat constructor; eexists; reflexivity|].
  split; [reflexivity|].
  assert (calculate_period_calendar h 28 5 6 = Raise OverflowError) as E
    by reflexivity.
  split; [exact E|].
  intros (e & rest & He & _). rewrite E in He. discriminate.
Qed.

(** * Beyond the claims: round trips, the dashboards, sessions and stamps *)

Section CalendarRoundTrip.

Lemma all_from_spec (f : Z -> bool) (count : nat) (first i : Z) :
  all_from f first count = true ->
  first <= i < first + Z.of_nat count -> f i = true.
Proof.
  revert first. induction count as [|c IH]; intros first H Hi; [lia|].
  cbn [all_from] in H. apply andb_true_iff in H. destruct H as [H0 H1].
  destruct (Z.eq_dec i first) as [->|Hne]; [exact H0|].
  apply (IH (first + 1)); [exact H1|lia].
Qed.

Lemma month_days_checked (leapyear : bool) :
  all_from (month_day_ok leapyear) 0 365 = true.
Proof. destruct leapyear; vm_compute; reflexivity. Qed.

Lemma month_day_spec (leapyear : bool) (n : Z) :
  0 <= n < 365 ->
  let m := fst (month_day leapyear n) in
  let d := snd (month_day leapyear n) in
  1 <= m <= 12 /\
  1 <= d <= DAYS_IN_MONTH m + (if (m =? 2) && leapyear then 1 else 0) /\
  DAYS_BEFORE_MONTH m + (if (2 <? m) && leapyear then 1 else 0) + d = n + 1.
Proof.
  intros Hn.
  pose proof (all_from_spec _ _ _ n (month_days_checked leapyear) ltac:(lia)) as H.
  unfold month_day_ok in H.
  destruct (month_day leapyear n) as [m d]. cbn [fst snd].
  rewrite !andb_true_iff, !Z.leb_le, Z.eqb_eq in H. lia.
Qed.

Lemma ord2ymd_unfold (o : Z) :
  ord2ymd o =
  let n := o - 1 in
  let n400 := n / DI400Y in
  let n := n mod DI400Y in
  let n100 := n / DI100Y in
  let n := n mod DI100Y in
  let n4 := n / DI4Y in
  let n := n mod DI4Y in
  let n1 := n / 365 in
  let n := n mod 365 in
  let year := n400 * 400 + 1 + n100 * 100 + n4 * 4 + n1 in
  if (n1 =? 4) || (n100 =? 4) then (year - 1, 12, 31)
  else
    let md := month_day ((n1 =? 3) && (negb (n4 =? 24) || (n100 =? 3))) n in
    (year, fst md, snd md).
Proof.
  unfold ord2ymd, month_day. cbv zeta.
  destruct (_ || _); [reflexivity|].
  match goal with |- (if ?b then _ else _) = _ => destruct b end; reflexivity.
Qed.

Lemma days_before_year_cycle (q n100 n4 n1 : Z) :
  0 <= n100 <= 3 -> 0 <= n4 <= 24 -> 0 <= n1 <= 3 ->
  days_before_year (400 * q + 100 * n100 + 4 * n4 + n1 + 1)
  = 146097 * q + 36524 * n100 + 1461 * n4 + 365 * n1.
Proof.
  intros H100 H4 H1. unfold days_before_year. cbv zeta.
  Z.div_mod_to_equations. lia.
Qed.

Lemma is_leap_cycle (q n100 n4 n1 : Z) :
  0 <= n100 <= 3 -> 0 <= n4 <= 24 -> 0 <= n1 <= 3 ->
  is_leap (400 * q + 100 * n100 + 4 * n4 + n1 + 1)
  = (n1 =? 3) && (negb (n4 =? 24) || (n100 =? 3)).
Proof.
  intros H100 H4 H1. unfold is_leap.
  set (y := 400 * q + 100 * n100 + 4 * n4 + n1 + 1).
  assert ((y mod 4 =? 0) = (n1 =? 3)) as E4.
  { destruct (Z.eqb_spec n1 3); [apply Z.eqb_eq|apply Z.eqb_neq];
      subst y; Z.div_mod_to_equations; lia. }
  assert ((y mod 100 =? 0) = (n1 =? 3) && (n4 =? 24)) as E100.
  { destruct (Z.eqb_spec n1 3), (Z.eqb_spec n4 24); cbn [andb];
      [apply Z.eqb_eq|apply Z.eqb_neq|apply Z.eqb_neq|apply Z.eqb_neq];
      subst y; Z.div_mod_to_equations; lia. }
  assert ((y mod 400 =? 0) = (n1 =? 3) && (n4 =? 24) && (n100 =? 3)) as E400.
  { destruct (Z.eqb_spec n1 3), (Z.eqb_spec n4 24), (Z.eqb_spec n100 3);
      cbn [andb]; (apply Z.eqb_eq || apply Z.eqb_neq);
      subst y; Z.div_mod_to_equations; lia. }
  rewrite E4, E100, E400.
  destruct (n1 =? 3), (n4 =? 24), (n100 =? 3); reflexivity.
Qed.

Lemma days_in_month_alt (y m : Z) :
  days_in_month y m = DAYS_IN_MONTH m + (if (m =? 2) && is_leap y then 1 else 0).
Proof.
  unfold days_in_month.
  destruct (Z.eqb_spec m 2) as [->|]; cbn [andb]; [|lia].
  destruct (is_leap y); reflexivity.
Qed.

(** [_ord2ymd] gives a calendar date of the years 1 to 9999, and
    [_ymd2ord] takes it back to the ordinal. *)
Lemma ord2ymd_correct (o : Z) :
  1 <= o <= MAXORDINAL ->
  1 <= year_of o <= 9999 /\
  1 <= month_of o <= 12 /\
  1 <= day_of o <= days_in_month (year_of o) (month_of o) /\
  ymd2ord (year_of o) (month_of o) (day_of o) = o.
Proof.
  intros Ho. unfold year_of, month_of, day_of.
  rewrite ord2ymd_unfold. unfold MAXORDINAL, DI400Y, DI100Y, DI4Y in *.
  cbv zeta.
  pose proof (Z.div_mod (o - 1) 146097 ltac:(lia)) as E0.
  pose proof (Z.mod_pos_bound (o - 1) 146097 ltac:(lia)) as B0.
  set (q := (o - 1) / 146097) in *. set (r0 := (o - 1) mod 146097) in *.
  pose proof (Z.div_mod r0 36524 ltac:(lia)) as E1.
  pose proof (Z.mod_pos_bound r0 36524 ltac:(lia)) as B1.
  set (n100 := r0 / 36524) in *. set (r1 := r0 mod 36524) in *.
  pose proof (Z.div_mod r1 1461 ltac:(lia)) as E2.
  pose proof (Z.mod_pos_bound r1 1461 ltac:(lia)) as B2.
  set (n4 := r1 / 1461) in *. set (r2 := r1 mod 1461) in *.
  pose proof (Z.div_mod r2 365 ltac:(lia)) as E3.
  pose proof (Z.mod_pos_bound r2 365 ltac:(lia)) as B3.
  set (n1 := r2 / 365) in *. set (doy := r2 mod 365) in *.
  clearbody q r0 n100 r1 n4 r2 n1 doy.
  assert (0 <= q) as Hq by lia.
  assert (0 <= n100 <= 4) as H100 by lia.
  assert (0 <= n4 <= 24) as H4 by lia.
  assert (0 <= n1 <= 4) as H1 by lia.
  destruct ((n1 =? 4) || (n100 =? 4)) eqn:Hs; cbn [fst snd].
  - apply orb_true_iff in Hs. rewrite !Z.eqb_eq in Hs.
    assert (exists a b, 0 <= a <= 3 /\ 0 <= b <= 24
                        /\ (b = 24 -> a = 3)
                        /\ q * 400 + 1 + n100 * 100 + n4 * 4 + n1 - 1
                           = 400 * q + 100 * a + 4 * b + 3 + 1
                        /\ o = 146097 * q + 36524 * a + 1461 * b + 365 * 3 + 366)
      as (a & b & Ha & Hb & Hab & Ey & Eo).
    { destruct (Z.eq_dec n100 4) as [E|E].
      - exists 3, 24. lia.
      - exists n100, n4. lia. }
    rewrite Ey.
    pose proof (days_before_year_cycle q a b 3 Ha Hb ltac:(lia)) as Ed.
    pose proof (is_leap_cycle q a b 3 Ha Hb ltac:(lia)) as El.
    assert (is_leap (400 * q + 100 * a + 4 * b + 3 + 1) = true) as El'.
    { rewrite El. cbn [Z.eqb Pos.eqb andb].
      destruct (Z.eqb_spec b 24) as [Eb|Eb]; cbn [negb orb]; [|reflexivity].
      apply Z.eqb_eq. auto. }
    split; [lia|]. split; [lia|].
    split.
    + rewrite days_in_month_alt.
      change (DAYS_IN_MONTH 12) with 31. change (12 =? 2) with false.
      cbn [andb]. lia.
    + unfold ymd2ord, days_before_month. rewrite Ed, El'.
      change (DAYS_BEFORE_MONTH 12) with 334. change (2 <? 12) with true.
      cbn [andb]. lia.
  - apply orb_false_iff in Hs. rewrite !Z.eqb_neq in Hs.
    assert (0 <= n100 <= 3) as H100' by lia.
    assert (0 <= n1 <= 3) as H1' by lia.
    replace (q * 400 + 1 + n100 * 100 + n4 * 4 + n1)
      with (400 * q + 100 * n100 + 4 * n4 + n1 + 1) by lia.
    pose proof (days_before_year_cycle q n100 n4 n1 H100' H4 H1') as Ed.
    pose proof (is_leap_cycle q n100 n4 n1 H100' H4 H1') as El.
    set (y := 400 * q + 100 * n100 + 4 * n4 + n1 + 1) in *.
    rewrite <- El.
    pose proof (month_day_spec (is_leap y) doy B3) as (Hm & Hd & Hn).
    set (m := fst (month_day (is_leap y) doy)) in *.
    set (d := snd (month_day (is_leap y) doy)) in *.
    clearbody m d.
    split; [subst y; lia|]. split; [exact Hm|].
    split.
    + rewrite days_in_month_alt. exact Hd.
    + unfold ymd2ord, days_before_month. rewrite Ed. lia.
Qed.

End CalendarRoundTrip.

Section TextRoundTrip.

Lemma digit_char_spec (k : Z) :
  0 <= k <= 9 -> is_digit (digit_char k) = true /\ digit_val (digit_char k) = k.
Proof.
  intros Hk.
  assert (k = 0 \/ k = 1 \/ k = 2 \/ k = 3 \/ k = 4 \/ k = 5 \/ k = 6 \/
          k = 7 \/ k = 8 \/ k = 9) as Hc by lia.
  repeat destruct Hc as [->|Hc]; try subst k; split; reflexivity.
Qed.

Lemma hd_error_app {A : Type} (l k : list A) (x : A) :
  hd_error l = Some x -> hd_error (l ++ k) = Some x.
Proof. destruct l; simpl; [discriminate|auto]. Qed.

Lemma hd_error_flat_map {A B : Type} (f : A -> list B) (l : list A) (x : A) (z : B) :
  hd_error l = Some x -> hd_error (f x) = Some z ->
  hd_error (flat_map f l) = Some z.
Proof.
  destruct l as [|a t]; simpl; [discriminate|].
  intros [= ->] Hz. now apply hd_error_app.
Qed.

Lemma hd_error_map {A B : Type} (f : A -> B) (l : list A) (x : A) :
  hd_error l = Some x -> hd_error (map f l) = Some (f x).
Proof. destruct l; simpl; [discriminate|]. now intros [= ->]. Qed.

(** The year group reads back four zero-filled digits. *)
Lemma re_Y_pad4 (y : Z) (rest : string) :
  0 <= y <= 9999 -> re_Y (pad4 y ++ rest) = [(y, rest)].
Proof.
  intros Hy. unfold pad4, pad2. cbn [append]. unfold re_Y.
  assert (0 <= y / 1000 mod 10 <= 9) as H3 by (Z.div_mod_to_equations; lia).
  assert (0 <= y / 100 mod 10 <= 9) as H2 by (Z.div_mod_to_equations; lia).
  assert (0 <= y / 10 mod 10 <= 9) as H1 by (Z.div_mod_to_equations; lia).
  assert (0 <= y mod 10 <= 9) as H0 by (Z.div_mod_to_equations; lia).
  destruct (digit_char_spec _ H3) as [-> ->].
  destruct (digit_char_spec _ H2) as [-> ->].
  destruct (digit_char_spec _ H1) as [-> ->].
  destruct (digit_char_spec _ H0) as [-> ->].
  cbn [andb]. f_equal. f_equal.
  Z.div_mod_to_equations. lia.
Qed.

(** The month group reads back two zero-filled digits before a dash. *)
Lemma re_m_pad2 (m : Z) (rest : string) :
  1 <= m <= 12 ->
  hd_error (re_m (pad2 m ++ String "-" rest)) = Some (m, String "-" rest).
Proof.
  intros Hm.
  assert (m = 1 \/ m = 2 \/ m = 3 \/ m = 4 \/ m = 5 \/ m = 6 \/ m = 7 \/
          m = 8 \/ m = 9 \/ m = 10 \/ m = 11 \/ m = 12) as Hc by lia.
  repeat destruct Hc as [->|Hc]; try subst m; reflexivity.
Qed.

Lemma days_read_back : all_from day_reads_back 1 31 = true.
Proof. vm_compute. reflexivity. Qed.

(** The day group reads back two zero-filled digits at the end. *)
Lemma re_d_pad2 (d : Z) :
  1 <= d <= 31 -> hd_error (re_d (pad2 d)) = Some (d, "").
Proof.
  intros Hd.
  pose proof (all_from_spec _ _ _ d days_read_back ltac:(lia)) as H.
  unfold day_reads_back in H.
  destruct (hd_error (re_d (pad2 d))) as [[d' rest]|]; [|discriminate].
  apply andb_true_iff in H. destruct H as [H1 H2].
  apply Z.eqb_eq in H1. apply String.eqb_eq in H2. now subst.
Qed.

Lemma re_matches_formatted (y m d : Z) :
  0 <= y <= 9999 -> 1 <= m <= 12 -> 1 <= d <= 31 ->
  hd_error (re_matches (pad4 y ++ "-" ++ pad2 m ++ "-" ++ pad2 d))
  = Some (y, m, d, "").
Proof.
  intros Hy Hm Hd. unfold re_matches.
  rewrite re_Y_pad4 by exact Hy.
  eapply hd_error_flat_map; [reflexivity|].
  cbn [append re_dash]. rewrite Ascii.eqb_refl.
  eapply hd_error_flat_map; [reflexivity|].
  eapply hd_error_flat_map; [apply re_m_pad2; exact Hm|].
  cbn [re_dash]. rewrite Ascii.eqb_refl.
  eapply hd_error_flat_map; [reflexivity|].
  apply (hd_error_map (fun '(d0, r5) => (y, m, d0, r5)) _ (d, "")).
  apply re_d_pad2. exact Hd.
Qed.

(** Round trip: the text [strftime] writes for a date of the years 1 to 9999
    is read back by [strptime] as that date. *)
Lemma strptime_strftime (o : Z) :
  in_range o = true -> strptime (strftime o) = Ok o.
Proof.
  intros Ho. apply in_range_bounds in Ho.
  destruct (ord2ymd_correct o Ho) as (Hy & Hm & Hd & Eo).
  assert (days_in_month (year_of o) (month_of o) <= 31) as Hdim.
  { rewrite days_in_month_alt.
    assert (month_of o = 1 \/ month_of o = 2 \/ month_of o = 3 \/ month_of o = 4
            \/ month_of o = 5 \/ month_of o = 6 \/ month_of o = 7
            \/ month_of o = 8 \/ month_of o = 9 \/ month_of o = 10
            \/ month_of o = 11 \/ month_of o = 12) as Hc by lia.
    destruct (is_leap (year_of o));
      repeat destruct Hc as [->|Hc]; try rewrite Hc; cbn; lia. }
  unfold strptime, strftime.
  pose proof (re_matches_formatted (year_of o) (month_of o) (day_of o)
                ltac:(lia) Hm ltac:(lia)) as Hh.
  destruct (re_matches _) as [|[[[y m] d] rest] t]; [discriminate|].
  cbn [hd_error] in Hh. injection Hh as -> -> -> ->.
  cbn [String.eqb negb].
  replace ((MINYEAR <=? year_of o)
           && (day_of o <=? days_in_month (year_of o) (month_of o))) with true.
  - now rewrite Eo.
  - symmetry. apply andb_true_iff. unfold MINYEAR. rewrite !Z.leb_le. lia.
Qed.

(** Distinct dates get distinct texts. *)
Lemma strftime_injective (a b : Z) :
  in_range a = true -> in_range b = true -> strftime a = strftime b -> a = b.
Proof.
  intros Ha Hb E.
  pose proof (strptime_strftime a Ha) as Pa.
  rewrite E, (strptime_strftime b Hb) in Pa. now injection Pa.
Qed.

End TextRoundTrip.

Section MoreAnalysisFacts.

Lemma analysis_insufficient (h : list period) :
  len (valid_dates h) < 2 ->
  calculate_cycle_analysis h = Ok (insufficient_data h).
Proof.
  intros Hn. unfold calculate_cycle_analysis.
  destruct (len h <? 2); [reflexivity|].
  rewrite parse_dates_valid.
  replace (len (valid_dates h) <? 2) with true
    by (symmetry; apply Z.ltb_lt; exact Hn).
  reflexivity.
Qed.

Lemma sum_lower (lo : Z) (l : list Z) :
  Forall (fun x => lo <= x) l -> lo * len l <= sum l.
Proof.
  induction 1 as [|x t Hx _ IH].
  - unfold sum, len. simpl. lia.
  - rewrite sum_cons, len_cons. lia.
Qed.

Lemma sum_upper (hi : Z) (l : list Z) :
  Forall (fun x => x <= hi) l -> sum l <= hi * len l.
Proof.
  induction 1 as [|x t Hx _ IH].
  - unfold sum, len. simpl. lia.
  - rewrite sum_cons, len_cons. lia.
Qed.



Lemma analysis_raise_inv (h : list period) (e : exn) :
  calculate_cycle_analysis h = Raise e ->
  e = OverflowError /\ 2 <= len (valid_dates h).
Proof.
  intros He.
  destruct (Z_lt_le_dec (len (valid_dates h)) 2) as [Hlt|Hge].
  - rewrite analysis_insufficient in He by exact Hlt. discriminate.
  - destruct (analysis_enough_data h Hge) as (hi & lo & _ & _ & E).
    rewrite E in He.
    destruct (analysis_in_range _ _); [discriminate|].
    injection He as <-. auto.
Qed.


Lemma predict_last_raise (front : list period) (p : period) (c : Z) (e : exn) :
  strptime_value (start p) = Raise e ->
  predict_next_period (front ++ [p]) c = Raise e.
Proof.
  intros He. unfold predict_next_period.
  replace (len (front ++ [p]) <? 1) with false.
  - now rewrite last_last, He.
  - symmetry. apply Z.ltb_ge. rewrite len_app.
    pose proof (len_nonneg front). unfold len at 2. simpl. lia.
Qed.


End MoreAnalysisFacts.

(** X1.  Parse errors never escape the analysis: whatever the records hold,
    [calculate_cycle_analysis] raises nothing but [OverflowError], and raises
    nothing at all on a history with fewer than two valid start dates. *)
Theorem X1_analysis_raises_only_overflow (h : list period) (e : exn) :
  calculate_cycle_analysis h = Raise e ->
  e = OverflowError /\ 2 <= len (valid_dates h).
Proof. apply analysis_raise_inv. Qed.

Lemma X1_analysis_raises_only_overflow_witness :
  let h := history_of ["9999-12-01"; "oops"; "9999-12-21"] in
  calculate_cycle_analysis h = Raise OverflowError /\
  2 <= len (valid_dates h).
Proof.
  intros h.
  assert (calculate_cycle_analysis h = Raise OverflowError) as E by reflexivity.
  split; [exact E|].
  apply (X1_analysis_raises_only_overflow h OverflowError E).
Defined.

(** X2.  Whenever the analysis of a history with at least two valid start
    dates returns, its cycle length lies between the least and the greatest
    gap of the sorted valid dates and is not negative, and its period
    duration is 5. *)
Theorem X2_cycle_length_between_gaps (h : list period) (r : analysis) :
  2 <= len (valid_dates h) ->
  calculate_cycle_analysis h = Ok r ->
  exists lo hi,
    is_min lo (gaps (sort (valid_dates h))) /\
    is_max hi (gaps (sort (valid_dates h))) /\
    0 <= lo <= cycle_length r /\ cycle_length r <= hi /\
    period_duration r = 5.
Proof.
  intros Hn Hr.
  destruct (analysis_enough_data h Hn) as (hi & lo & Hhi & Hlo & E).
  cbv zeta in E. rewrite E in Hr.
  destruct (analysis_in_range _ _); [|discriminate].
  injection Hr as <-. cbn [cycle_length period_duration analysis_of].
  exists lo, hi. split; [exact Hlo|]. split; [exact Hhi|].
  set (g := gaps (sort (valid_dates h))) in *.
  assert (len g = len (valid_dates h) - 1) as Hg.
  { assert (len (sort (valid_dates h)) = len (valid_dates h)) as Hd
      by (unfold len; now rewrite sort_length).
    unfold g. rewrite gaps_length, Hd. lia. }
  pose proof (sum_lower lo g (proj2 Hlo)) as Hl.
  pose proof (sum_upper hi g (proj2 Hhi)) as Hu.
  pose proof (Z.mul_div_le (sum g) (len g) ltac:(lia)) as Hd1.
  pose proof (Z.mul_succ_div_gt (sum g) (len g) ltac:(lia)) as Hd2.
  assert (0 <= lo) as H0.
  { pose proof (gaps_nonneg _ (sort_sorted (valid_dates h))) as Hnn.
    fold g in Hnn. rewrite Forall_forall in Hnn. apply Hnn. apply Hlo. }
  split; [|split; [nia|reflexivity]].
  split; [exact H0|nia].
Qed.

Lemma X2_cycle_length_between_gaps_witness :
  let h := history_of ["2024-01-01"; "2024-01-21"; "2024-02-25"] in
  exists r lo hi,
    calculate_cycle_analysis h = Ok r /\
    0 <= lo <= cycle_length r /\ cycle_length r <= hi.
Proof.
  intros h.
  assert (2 <= len (valid_dates h)) as Hn by (vm_compute; discriminate).
  assert (calculate_cycle_analysis h = Ok (analysis_of 738941 27 15)) as E
    by reflexivity.
  destruct (X2_cycle_length_between_gaps h _ Hn E)
    as (lo & hi & _ & _ & Hlo & Hhi & _).
  exists (analysis_of 738941 27 15), lo, hi. auto.
Defined.



(** X4.  The prediction looks at the last record only: whatever records come
    before it, a last record whose start does not parse makes
    [predict_next_period] raise the parse error, [ValueError] for a string
    and [TypeError] for any other value, for every cycle length. *)
Theorem X4_predict_raises_on_unparseable_last
  (front : list period) (p : period) (c : Z) (e : exn) :
  strptime_value (start p) = Raise e ->
  predict_next_period (front ++ [p]) c = Raise e /\
  ((exists s, start p = Str s) -> e = ValueError) /\
  ((forall s, start p <> Str s) -> e = TypeError).
Proof.
  intros He. split; [|split].
  - now apply predict_last_raise.
  - intros (s & Hs). rewrite Hs in He. simpl in He.
    unfold strptime in He.
    destruct (re_matches s) as [|[[[y m] d] rest] t]; [now injection He|].
    destruct (negb _); [now injection He|].
    destruct (_ && _); [discriminate|now injection He].
  - intros Hs. destruct (start p) as [s| |]; simpl in He.
    + now destruct (Hs s).
    + now injection He.
    + now injection He.
Qed.

Lemma X4_predict_raises_on_unparseable_last_witness :
  let front := history_of ["2024-01-01"; "2024-01-29"] in
  let p := mkPeriod "2024-02-26" (Str "26/02/2024") in
  predict_next_period (front ++ [p]) 28 = Raise ValueError.
Proof.
  intros front p.
  apply (X4_predict_raises_on_unparseable_last front p 28 ValueError).
  reflexivity.
Defined.

Section MoreCalendarFacts.

Lemma range_snoc (n : Z) : 0 <= n -> range (n + 1) = range n ++ [n].
Proof.
  intros Hn. unfold range.
  replace (Z.to_nat (n + 1)) with (S (Z.to_nat n)) by lia.
  rewrite seq_S, map_app. cbn [map plus]. now rewrite Z2Nat.id by lia.
Qed.

(** The history has a last valid date or none. *)
Lemma valid_dates_last (h : list period) :
  valid_dates h = [] \/ exists front ref, valid_dates h = front ++ [ref].
Proof.
  destruct (valid_dates h) as [|a t] eqn:E; [now left|right].
  destruct (@exists_last _ (a :: t)) as (front & ref & ->); [discriminate|].
  eauto.
Qed.




End MoreCalendarFacts.

(** X5.  The calendar is decided by the last valid start date alone: two
    histories whose valid dates end with the same date get the same calendar
    (or the same error), whatever else they contain, malformed records after
    the last valid one included. *)
Theorem X5_calendar_depends_on_last_valid_date
  (h k : list period) (front front' : list Z) (ref c pd months : Z) :
  valid_dates h = front ++ [ref] ->
  valid_dates k = front' ++ [ref] ->
  calculate_period_calendar h c pd months
  = calculate_period_calendar k c pd months.
Proof.
  intros Hh Hk.
  now rewrite (calendar_spec h front ref c pd months Hh),
              (calendar_spec k front' ref c pd months Hk).
Qed.

Lemma X5_calendar_depends_on_last_valid_date_witness :
  let h := history_of ["2023-11-05"; "2024-01-01"; "soon"] in
  let k := history_of ["2024-01-01"] in
  calculate_period_calendar h 28 5 6 = calculate_period_calendar k 28 5 6 /\
  predict_next_period h 28 = Raise ValueError /\
  predict_next_period k 28 = Ok "2024-01-29".
Proof.
  intros h k. split; [|split; reflexivity].
  apply (X5_calendar_depends_on_last_valid_date h k [738829] [] 738886);
    reflexivity.
Defined.

(** X6.  The calendar raises nothing but [OverflowError], and only when asked
    for at least one month on a history with a valid start date. *)
Theorem X6_calendar_raises_only_overflow
  (h : list period) (c pd months : Z) (e : exn) :
  calculate_period_calendar h c pd months = Raise e ->
  e = OverflowError /\ 0 < months /\ valid_dates h <> [].
Proof.
  intros He.
  destruct (valid_dates_last h) as [Hv|(front & ref & Hv)].
  - rewrite calendar_no_valid_date in He by exact Hv. discriminate.
  - rewrite (calendar_spec h front ref c pd months Hv) in He.
    destruct (calendar_in_range ref c pd months) eqn:Hr; [discriminate|].
    injection He as <-. split; [reflexivity|]. split.
    + destruct (Z_lt_le_dec 0 months) as [Hm|Hm]; [exact Hm|].
      unfold calendar_in_range in Hr. unfold range in Hr.
      replace (Z.to_nat months) with 0%nat in Hr by lia. discriminate.
    + rewrite Hv. intros E. now apply app_eq_nil in E.
Qed.

Lemma X6_calendar_raises_only_overflow_witness :
  let h := history_of ["9999-12-01"] in
  calculate_period_calendar h 28 5 6 = Raise OverflowError /\
  0 < 6 /\ valid_dates h <> [].
Proof.
  intros h.
  assert (calculate_period_calendar h 28 5 6 = Raise OverflowError) as E
    by reflexivity.
  split; [exact E|].
  apply (X6_calendar_raises_only_overflow h 28 5 6 OverflowError E).
Defined.

(** X7.  Asking for one month more only appends one cycle: when the calendar
    for [months + 1] months returns, the calendar for [months] months returns
    a prefix of it; what is appended is numbered [months + 1] and, on a
    history with a valid start date, has [period_duration] entries (none for
    a negative duration). *)
Theorem X7_calendar_grows_by_one_cycle
  (h : list period) (c pd months : Z) (entries : list prediction) :
  0 <= months ->
  calculate_period_calendar h c pd (months + 1) = Ok entries ->
  exists before added,
    calculate_period_calendar h c pd months = Ok before /\
    entries = before ++ added /\
    Forall (fun e => cycle_number e = months + 1) added /\
    (valid_dates h <> [] -> len added = Z.max 0 pd).
Proof.
  intros Hm He.
  destruct (valid_dates_last h) as [Hv|(front & ref & Hv)].
  - rewrite calendar_no_valid_date in He by exact Hv.
    injection He as <-. exists [], [].
    rewrite calendar_no_valid_date by exact Hv.
    repeat split; [constructor|congruence].
  - rewrite (calendar_spec h front ref c pd (months + 1) Hv) in He.
    rewrite (calendar_spec h front ref c pd months Hv).
    unfold calendar_in_range, calendar_entries in *.
    rewrite range_snoc in He by exact Hm.
    rewrite forallb_app, flat_map_app in He.
    destruct (forallb _ (range months)); [|discriminate].
    cbn [andb] in He.
    destruct (forallb _ [months]); [|discriminate].
    injection He as <-.
    exists (flat_map (cycle_entries ref c pd) (range months)),
           (cycle_entries ref c pd months).
    cbn [flat_map]. rewrite app_nil_r.
    repeat split.
    + unfold cycle_entries. rewrite Forall_map. apply Forall_forall.
      intros day _. reflexivity.
    + intros _. unfold len. rewrite cycle_entries_length. lia.
Qed.

Lemma X7_calendar_grows_by_one_cycle_witness :
  let h := history_of ["2024-01-01"] in
  exists before added,
    calculate_period_calendar h 30 3 1 = Ok before /\
    calculate_period_calendar h 30 3 (1 + 1) = Ok (before ++ added) /\
    len added = 3.
Proof.
  intros h.
  assert (calculate_period_calendar h 30 3 (1 + 1)
          = Ok (calendar_entries 738886 30 3 2)) as E by reflexivity.
  destruct (X7_calendar_grows_by_one_cycle h 30 3 1 _ ltac:(lia) E)
    as (before & added & Hb & He & _ & Hl).
  exists before, added. split; [exact Hb|].
  split; [now rewrite E, He|].
  apply Hl. discriminate.
Defined.





Section DashboardFacts.


Lemma history_fold (logs : list day_log) (acc : list period) :
  fold_left history_step logs acc
  = acc ++ map record_of (filter (fun l => truthy (period_start l)) logs).
Proof.
  revert acc. induction logs as [|l t IH]; intros acc; simpl.
  - now rewrite app_nil_r.
  - rewrite IH. unfold history_step.
    destruct (truthy (period_start l)); simpl; [|reflexivity].
    now rewrite <- app_assoc.
Qed.

(** The history is the days with a truthy start, in the order of the logs. *)
Lemma build_history_filter (logs : list day_log) :
  build_history logs
  = map record_of (filter (fun l => truthy (period_start l)) logs).
Proof. unfold build_history. now rewrite history_fold. Qed.

Lemma filter_all_false {A : Type} (f : A -> bool) (l : list A) :
  Forall (fun x => f x = false) l -> filter f l = [].
Proof.
  induction 1 as [|x t Hx _ IH]; simpl; [reflexivity|]. now rewrite Hx.
Qed.

(** The history of logs whose last day with a truthy start is [l]. *)
Lemma build_history_last (before after : list day_log) (l : day_log) :
  truthy (period_start l) = true ->
  Forall (fun x => truthy (period_start x) = false) after ->
  build_history (before ++ l :: after) = build_history before ++ [record_of l].
Proof.
  intros Hl Ha. rewrite !build_history_filter, filter_app. cbn [filter].
  rewrite Hl, (filter_all_false _ after Ha), map_app. reflexivity.
Qed.


Lemma nth_error_0 {A : Type} (l : list A) : nth_error l 0 = hd_error l.
Proof. destruct l; reflexivity. Qed.

End DashboardFacts.

(** X10.  Overlapping periods are listed twice: in a returned calendar of at
    least two months whose cycle length is shorter than the period duration
    (and not negative), day [cycle_length] of the first cycle and the first
    day of the second cycle are the same date. *)
Theorem X10_calendar_repeats_days_of_short_cycles
  (h : list period) (c pd months : Z) (entries : list prediction) :
  valid_dates h <> [] ->
  calculate_period_calendar h c pd months = Ok entries ->
  0 <= c < pd -> 2 <= months ->
  exists e1 e2,
    nth_error entries (Z.to_nat c) = Some e1 /\
    nth_error entries (Z.to_nat pd) = Some e2 /\
    cycle_number e1 = 1 /\ cycle_number e2 = 2 /\
    date e1 = date e2.
Proof.
  intros Hne He Hc Hm.
  destruct (valid_dates_last h) as [Hv|(front & ref & Hv)]; [contradiction|].
  rewrite (calendar_spec h front ref c pd months Hv) in He.
  destruct (calendar_in_range ref c pd months); [|discriminate].
  injection He as <-.
  pose proof (calendar_entries_nth ref c pd months 0 c ltac:(lia) Hc) as H1.
  pose proof (calendar_entries_nth ref c pd months 1 0 ltac:(lia) ltac:(lia))
    as H2.
  replace (0 * pd + c) with c in H1 by lia.
  replace (1 * pd + 0) with pd in H2 by lia.
  eexists. eexists. split; [exact H1|]. split; [exact H2|].
  cbn [cycle_number date entry_of].
  split; [reflexivity|]. split; [reflexivity|].
  f_equal. lia.
Qed.

Lemma X10_calendar_repeats_days_of_short_cycles_witness :
  let h := history_of ["2024-03-04"; "2024-03-04"] in
  exists entries e1 e2,
    calculate_period_calendar h 0 5 6 = Ok entries /\
    nth_error entries 0 = Some e1 /\ nth_error entries 5 = Some e2 /\
    date e1 = "2024-03-04" /\ date e2 = "2024-03-04".
Proof.
  intros h.
  assert (calculate_period_calendar h 0 5 6
          = Ok (calendar_entries 738949 0 5 6)) as E by reflexivity.
  destruct (X10_calendar_repeats_days_of_short_cycles h 0 5 6 _
              ltac:(discriminate) E ltac:(lia) ltac:(lia))
    as (e1 & e2 & H1 & H2 & _ & _ & Hd).
  exists (calendar_entries 738949 0 5 6), e1, e2.
  split; [exact E|]. split; [exact H1|]. split; [exact H2|].
  assert (date e1 = "2024-03-04") as D1.
  { change (nth_error (calendar_entries 738949 0 5 6) (Z.to_nat 0))
      with (Some (entry_of 738949 0)) in H1.
    injection H1 as <-. reflexivity. }
  split; [exact D1|]. now rewrite <- Hd.
Defined.





(** X13.  The period history the dashboards build holds exactly the days
    with a truthy period start, in the order of the logs; so the empty log
    that [dashboard] creates for today changes nothing, wherever it sits. *)
Theorem X13_history_keeps_days_with_a_start
  (logs after : list day_log) (today : string) :
  build_history logs
  = map (fun l => mkPeriod (log_day l) (period_start l))
        (filter (fun l => truthy (period_start l)) logs) /\
  Forall (fun p => truthy (start p) = true) (build_history logs) /\
  build_history (logs ++ initialize_daily_log today :: after)
  = build_history (logs ++ after).
Proof.
  split; [apply build_history_filter|]. split.
  - rewrite build_history_filter, Forall_map, Forall_forall.
    intros l Hl. apply filter_In in Hl. apply Hl.
  - rewrite !build_history_filter, !filter_app. reflexivity.
Qed.

(** X14.  Without period data the section degrades to fixed values: for a
    user whose gender is not "female" it shows no prediction, an empty
    calendar, no delay and the six defaults; for a female user whose logs
    hold no truthy period start it shows the same, except that the
    prediction is the sentinel text. *)
Theorem X14_section_without_period_data
  (today : datetime) (gender : value) (logs : list day_log) :
  (value_eqb gender (Str "female") = false ->
   cycle_section today gender logs
   = Ok {| view_prediction := Null; view_calendar := [];
           view_delay := None; view_analysis := no_analysis |}) /\
  (Forall (fun l => truthy (period_start l) = false) logs ->
   cycle_section today (Str "female") logs
   = Ok {| view_prediction := Str NEED_MORE_DATA; view_calendar := [];
           view_delay := None; view_analysis := no_analysis |}).
Proof.
  split.
  - intros Hg. unfold cycle_section. now rewrite Hg.
  - intros Hf. unfold cycle_section. cbn [value_eqb]. rewrite String.eqb_refl.
    rewrite build_history_filter, (filter_all_false _ logs Hf). reflexivity.
Qed.

Lemma X14_section_without_period_data_witness :
  let today := mkDatetime 738886 0 in
  let logs := [initialize_daily_log "2024-01-01"; mkDayLog "2024-01-02" Null] in
  cycle_section today (Str "male") logs
  = Ok {| view_prediction := Null; view_calendar := [];
          view_delay := None; view_analysis := no_analysis |} /\
  cycle_section today (Str "female") logs
  = Ok {| view_prediction := Str NEED_MORE_DATA; view_calendar := [];
          view_delay := None; view_analysis := no_analysis |}.
Proof.
  intros today logs.
  destruct (X14_section_without_period_data today (Str "male") logs) as (H1 & _).
  destruct (X14_section_without_period_data today (Str "female") logs) as (_ & H2).
  split; [apply H1; reflexivity|apply H2; repeat constructor].
Defined.



(** X16.  One malformed entry breaks the dashboard: when the last day with a
    truthy period start holds a start that does not parse, the cycle section
    of a female user raises, for every clock and whatever the other days
    hold; the error is the parse error of that start, or [OverflowError]
    when the analysis of the other days fails first. *)
Theorem X16_section_raises_on_unparseable_last_start
  (today : datetime) (before after : list day_log) (l : day_log) (e : exn) :
  truthy (period_start l) = true ->
  Forall (fun x => truthy (period_start x) = false) after ->
  strptime_value (period_start l) = Raise e ->
  exists e',
    cycle_section today (Str "female") (before ++ l :: after) = Raise e' /\
    (e' = e \/ e' = OverflowError).
Proof.
  intros Hl Ha He. unfold cycle_section.
  cbn [value_eqb]. rewrite String.eqb_refl.
  rewrite (build_history_last before after l Hl Ha).
  destruct (calculate_cycle_analysis (build_history before ++ [record_of l]))
    as [a|e0] eqn:Hc; cbn [bind].
  - rewrite (predict_last_raise _ (record_of l) _ e He). cbn [bind]. eauto.
  - apply analysis_raise_inv in Hc. destruct Hc as [-> _]. eauto.
Qed.

Lemma X16_section_raises_on_unparseable_last_start_witness :
  let today := mkDatetime 738950 0 in
  let before := [mkDayLog "2024-01-01" (Str "2024-01-01");
                 mkDayLog "2024-01-29" (Str "2024-01-29")] in
  let l := mkDayLog "2024-02-26" (Str "26.02.2024") in
  let after := [initialize_daily_log "2024-02-27"] in
  cycle_section today (Str "female") (before ++ l :: after) = Raise ValueError.
Proof.
  intros today before l after.
  destruct (X16_section_raises_on_unparseable_last_start today before after l
              ValueError eq_refl ltac:(repeat constructor) eq_refl)
    as (e' & He & _).
  rewrite He. f_equal.
  assert (cycle_section today (Str "female") (before ++ l :: after)
          = Raise ValueError) as E by (vm_compute; reflexivity).
  rewrite E in He. now injection He.
Defined.

Section SessionFacts.

Variable hash_password : string -> string.
Variable users : list (string * user).

Lemma login_post_ok (f : login_form) (some : list (string * user)) (s : session) :
  incl some users -> session_ok users s ->
  session_ok users (fst (login_post hash_password f some s)).
Proof.
  intros Hincl Hs. induction some as [|[uid u] rest IH]; [exact Hs|].
  assert (In uid (map fst users)) as Hin
    by (apply in_map_iff; exists (uid, u); split; [reflexivity|apply Hincl; now left]).
  assert (incl rest users) as Hrest by (intros x Hx; apply Hincl; now right).
  cbn [login_post].
  destruct (parent_login f).
  - destruct (_ && _); [|now apply IH].
    cbn [fst]. destruct Hs as [H1 H2]. split; cbn; [exact H1|].
    now intros ? [= <-].
  - destruct (_ && _); [|now apply IH].
    cbn [fst]. destruct Hs as [H1 H2]. split; cbn; [|exact H2].
    now intros ? [= <-].
Qed.

Lemma handle_ok (s : session) (r : request) :
  session_ok users s -> session_ok users (handle hash_password users s r).
Proof.
  intros Hs. destruct r as [f|]; cbn [handle].
  - apply login_post_ok; [apply incl_refl|exact Hs].
  - split; discriminate.
Qed.

Lemma session_after_ok (rs : list request) (s : session) :
  session_ok users s -> session_ok users (fold_left (handle hash_password users) rs s).
Proof.
  revert s. induction rs as [|r t IH]; intros s Hs; [exact Hs|].
  cbn [fold_left]. apply IH, handle_ok, Hs.
Qed.

Lemma login_post_no_match (f : login_form) (some : list (string * user))
  (s : session) :
  Forall (fun x => credentials_match hash_password f (snd x) = false) some ->
  login_post hash_password f some s
  = (s, Render "login.html" (Some "Invalid credentials")).
Proof.
  induction 1 as [|[uid u] rest Hu _ IH]; [reflexivity|].
  cbn [login_post]. unfold credentials_match in Hu. cbn [snd] in Hu.
  destruct (parent_login f); rewrite Hu; exact IH.
Qed.

Lemma login_post_first_match (f : login_form)
  (before after : list (string * user)) (uid : string) (u : user) (s : session) :
  Forall (fun x => credentials_match hash_password f (snd x) = false) before ->
  credentials_match hash_password f u = true ->
  login_post hash_password f (before ++ (uid, u) :: after) s
  = if parent_login f
    then ({| user_id := user_id s; parent_user_id := Some uid;
             is_parent := Some true |}, Redirect "parent_dashboard")
    else ({| user_id := Some uid; parent_user_id := parent_user_id s;
             is_parent := Some false |}, Redirect "dashboard").
Proof.
  intros Hb Hu.
  induction Hb as [|[uid' u'] rest Hu' _ IH]; cbn [app login_post].
  - unfold credentials_match in Hu.
    destruct (parent_login f); now rewrite Hu.
  - unfold credentials_match in Hu'. cbn [snd] in Hu'.
    destruct (parent_login f); rewrite Hu'; exact IH.
Qed.

End SessionFacts.

(** X17.  Whatever log-ins and log-outs a browser has made, the session
    never opens both dashboards, and a dashboard it opens belongs to a user
    of the users table, so that the routes never look up a user that does
    not exist; after a log-out it opens neither. *)
Theorem X17_session_opens_one_dashboard
  (hash_password : string -> string) (users : list (string * user))
  (rs : list request) :
  let s := session_after hash_password users rs in
  (forall uid, dashboard_access s = Some uid ->
               In uid (map fst users) /\ parent_dashboard_access s = None) /\
  (forall uid, parent_dashboard_access s = Some uid ->
               In uid (map fst users) /\ dashboard_access s = None) /\
  dashboard_access (session_after hash_password users (rs ++ [Logout])) = None /\
  parent_dashboard_access (session_after hash_password users (rs ++ [Logout]))
  = None.
Proof.
  intros s.
  assert (session_ok users s) as [Hu Hp].
  { apply session_after_ok. split; discriminate. }
  split; [|split; [|split]].
  - intros uid. unfold dashboard_access, parent_dashboard_access.
    destruct (user_id s) as [u|] eqn:Eu; [|discriminate].
    destruct (is_parent_set s); [discriminate|].
    intros [= <-]. split; [now apply Hu|].
    destruct (parent_user_id s); reflexivity.
  - intros uid. unfold dashboard_access, parent_dashboard_access.
    destruct (parent_user_id s) as [u|] eqn:Eu; [|discriminate].
    destruct (is_parent_set s); [|discriminate].
    intros [= <-]. split; [now apply Hp|].
    destruct (user_id s); reflexivity.
  - unfold session_after. now rewrite fold_left_app.
  - unfold session_after. now rewrite fold_left_app.
Qed.

(** X18.  Log-in takes the first user of the table whose credentials match
    the form, for the kind of log-in asked: it then opens that user's
    dashboard (the parent dashboard for a parent log-in) and not the other
    one; when no user matches it answers "Invalid credentials" and leaves the
    session as it was. *)
Theorem X18_login_takes_first_match
  (hash_password : string -> string) (f : login_form) (s : session) :
  (forall users,
     Forall (fun x => credentials_match hash_password f (snd x) = false) users ->
     login_post hash_password f users s
     = (s, Render "login.html" (Some "Invalid credentials"))) /\
  (forall before uid u after,
     Forall (fun x => credentials_match hash_password f (snd x) = false) before ->
     credentials_match hash_password f u = true ->
     let '(s', answer) :=
       login_post hash_password f (before ++ (uid, u) :: after) s in
     if parent_login f
     then parent_dashboard_access s' = Some uid /\ dashboard_access s' = None
          /\ answer = Redirect "parent_dashboard"
     else dashboard_access s' = Some uid /\ parent_dashboard_access s' = None
          /\ answer = Redirect "dashboard").
Proof.
  split; [intros users; apply login_post_no_match|].
  intros before uid u after Hb Hu.
  rewrite (login_post_first_match hash_password f before after uid u s Hb Hu).
  destruct (parent_login f).
  - repeat split. unfold dashboard_access. cbn. now destruct (user_id s).
  - repeat split. unfold parent_dashboard_access. cbn.
    now destruct (parent_user_id s).
Qed.

Lemma X18_login_takes_first_match_witness :
  let hash := fun s => ("#" ++ s)%string in
  let amy := mkUser (Some "amy@x.org") (Some "#pw1") (Some "mum@x.org") (Some "#pw2") in
  let bea := mkUser (Some "bea@x.org") (Some "#pw3") (Some "dad@x.org") (Some "#pw4") in
  let users := [("user_1", amy); ("user_2", bea)] in
  let f := mkLoginForm "dad@x.org" "pw4" true in
  parent_dashboard_access (fst (login_post hash f users empty_session))
  = Some "user_2" /\
  login_post hash (mkLoginForm "dad@x.org" "pw4" false) users empty_session
  = (empty_session, Render "login.html" (Some "Invalid credentials")).
Proof.
  intros hash amy bea users f.
  destruct (X18_login_takes_first_match hash f empty_session) as (_ & Hm).
  specialize (Hm [("user_1", amy)] "user_2" bea []
                 ltac:(repeat constructor) eq_refl).
  change ([("user_1", amy)] ++ [("user_2", bea)]) with users in Hm.
  destruct (login_post hash f users empty_session) as [s' answer].
  cbn [parent_login f] in Hm. destruct Hm as (Hp & _).
  split; [exact Hp|].
  destruct (X18_login_takes_first_match hash
              (mkLoginForm "dad@x.org" "pw4" false) empty_session) as (Hn & _).
  apply Hn. repeat constructor.
Defined.

Section StampFacts.

Lemma dict_set_keys (key v : string) (d : dict) :
  dict_mem key d = true -> map fst (dict_set key v d) = map fst d.
Proof.
  induction d as [|[k w] t IH]; cbn [dict_mem dict_set]; [discriminate|].
  destruct (String.eqb k key); cbn [orb map fst]; [reflexivity|].
  intros H. now rewrite IH.
Qed.

Lemma dict_mem_keys (key : string) (d : dict) :
  dict_mem key d = existsb (fun k => String.eqb k key) (map fst d).
Proof.
  induction d as [|[k w] t IH]; [reflexivity|].
  cbn [dict_mem map fst existsb]. now rewrite IH.
Qed.

Lemma dict_get_set_same (key v : string) (d : dict) :
  dict_get key (dict_set key v d) = Some v.
Proof.
  induction d as [|[k w] t IH]; cbn [dict_set dict_get].
  - now rewrite String.eqb_refl.
  - destruct (String.eqb k key) eqn:E; cbn [dict_get]; rewrite E; auto.
Qed.

Lemma dict_get_set_other (key v f : string) (d : dict) :
  key <> f -> dict_get f (dict_set key v d) = dict_get f d.
Proof.
  intros Hne. induction d as [|[k w] t IH]; cbn [dict_set dict_get].
  - destruct (String.eqb_spec key f); [contradiction|reflexivity].
  - destruct (String.eqb_spec k key) as [->|Hk]; cbn [dict_get].
    + destruct (String.eqb_spec key f); [contradiction|reflexivity].
    + now rewrite IH.
Qed.

(** The four fields of the mapping are fields of a fresh log. *)
Lemma mapping_targets (u field : string) :
  dict_get u timestamp_mapping = Some field ->
  dict_mem field initial_last_updated = true.
Proof.
  unfold timestamp_mapping. cbn [dict_get].
  repeat match goal with
         | |- (if ?b then _ else _) = _ -> _ =>
             destruct b; [intros [= <-]; reflexivity|]
         end.
  discriminate.
Qed.

Lemma stamp_keys (d : dict) (u : value) (t : string) :
  map fst d = map fst initial_last_updated ->
  map fst (stamp d u t) = map fst initial_last_updated.
Proof.
  intros Hd. unfold stamp.
  destruct u as [s| |]; try exact Hd.
  destruct (dict_get s timestamp_mapping) as [field|] eqn:Hm.
  - rewrite dict_set_keys; [exact Hd|].
    rewrite dict_mem_keys, Hd, <- dict_mem_keys.
    now apply (mapping_targets s).
  - destruct (dict_mem s d) eqn:Hs; [|exact Hd].
    now rewrite dict_set_keys.
Qed.

End StampFacts.

(** X19.  No request adds or removes a time-stamp field: after any sequence
    of update types and times, the ['last_updated'] dictionary of a day's log
    still has the eight keys of a fresh log, in their order. *)
Theorem X19_stamps_keep_the_fields (requests : list (value * string)) :
  map fst (fold_left (fun d r => stamp d (fst r) (snd r)) requests
                     initial_last_updated)
  = ["breakfast"; "lunch"; "evening"; "dinner"; "water"; "sleep"; "tasks";
     "period"].
Proof.
  change ["breakfast"; "lunch"; "evening"; "dinner"; "water"; "sleep";
          "tasks"; "period"] with (map fst initial_last_updated).
  assert (forall d, map fst d = map fst initial_last_updated ->
                    map fst (fold_left (fun d r => stamp d (fst r) (snd r))
                                       requests d)
                    = map fst initial_last_updated) as H.
  { induction requests as [|r t IH]; intros d Hd; [exact Hd|].
    cbn [fold_left]. apply IH, stamp_keys, Hd. }
  now apply H.
Qed.

(** X20.  A request stamps one field and no other: the field that
    [update_log] picks for the update type (through the meal mapping, or the
    update type itself when it is a field) reads the current time afterwards,
    every other field reads what it read before, and an update type that
    picks no field changes nothing. *)
Theorem X20_stamp_writes_one_field
  (last_updated : dict) (update_type : value) (current_time : string) :
  (forall field,
     stamped_field last_updated update_type = Some field ->
     dict_get field (stamp last_updated update_type current_time)
     = Some current_time /\
     forall other,
       other <> field ->
       dict_get other (stamp last_updated update_type current_time)
       = dict_get other last_updated) /\
  (stamped_field last_updated update_type = None ->
   stamp last_updated update_type current_time = last_updated).
Proof.
  unfold stamped_field, stamp.
  destruct update_type as [u| |]; try (split; [discriminate|reflexivity]).
  destruct (dict_get u timestamp_mapping) as [f|].
  - split; [|discriminate]. intros field [= <-].
    split; [apply dict_get_set_same|].
    intros other Ho. apply dict_get_set_other. congruence.
  - destruct (dict_mem u last_updated).
    + split; [|discriminate]. intros field [= <-].
      split; [apply dict_get_set_same|].
      intros other Ho. apply dict_get_set_other. congruence.
    + split; [discriminate|reflexivity].
Qed.

Lemma X20_stamp_writes_one_field_witness :
  stamped_field initial_last_updated (Str "morning") = Some "breakfast" /\
  dict_get "breakfast" (stamp initial_last_updated (Str "morning") "07:45")
  = Some "07:45" /\
  dict_get "lunch" (stamp initial_last_updated (Str "morning") "07:45")
  = Some "" /\
  stamp initial_last_updated (Str "meals") "07:45" = initial_last_updated.
Proof.
  destruct (X20_stamp_writes_one_field initial_last_updated (Str "morning")
              "07:45") as (Hs & _).
  destruct (Hs "breakfast" eq_refl) as (Hb & Ho).
  split; [reflexivity|]. split; [exact Hb|].
  split; [rewrite (Ho "lunch") by discriminate; reflexivity|].
  destruct (X20_stamp_writes_one_field initial_last_updated (Str "meals")
              "07:45") as (_ & Hn).
  apply Hn. reflexivity.
Defined.

Lemma X17_session_opens_one_dashboard_witness :
  let hash := fun s => ("#" ++ s)%string in
  let amy := mkUser (Some "amy@x.org") (Some "#pw1") (Some "mum@x.org") (Some "#pw2") in
  let users := [("user_1", amy)] in
  let rs := [LoginPost (mkLoginForm "amy@x.org" "pw1" false);
             LoginPost (mkLoginForm "mum@x.org" "pw2" true)] in
  let s := session_after hash users rs in
  user_id s = Some "user_1" /\
  parent_dashboard_access s = Some "user_1" /\
  In "user_1" (map fst users) /\
  dashboard_access s = None.
Proof.
  intros hash amy users rs s.
  assert (parent_dashboard_access s = Some "user_1") as Hp by reflexivity.
  destruct (X17_session_opens_one_dashboard hash users rs) as (_ & H & _).
  destruct (H "user_1" Hp) as (Hin & Hd).
  split; [reflexivity|]. split; [exact Hp|]. split; [exact Hin|exact Hd].
Defined.


